(** * enum_pass_manager: detection of password managers over SMB

    A shallow embedding of [nxc/modules/enum_pass_manager.py] and the
    properties of its wildcard path resolver and of its named-pipe scanner.

    Conventions of the embedding.
    - Python [str] values are [string]s whose characters are read as the code
      points 0..255 (Latin-1); [str.lower] is modelled on that range.
    - The module runs on a POSIX host: [os.path.join] is [posixpath.join]
      and [fnmatch.fnmatch] does not fold case ([os.path.normcase] is the
      identity there).
    - The remote host is an oracle [listPath share path] that either returns
      the entries of a listing or raises; the state of the remote host does
      not change during one run.
    - Every function that performs requests or writes to the logger returns
      its Python value paired with the events it produced, in order. *)

From Stdlib Require Import List String Ascii Bool Arith Lia.
Import ListNotations.
Open Scope string_scope.
Open Scope list_scope.

(** ** Python string primitives used by the module *)

Module Py.

(** [s.startswith(p)] *)
Fixpoint startswith (s p : string) {struct p} : bool :=
  match p with
  | EmptyString => true
  | String c p' =>
      match s with
      | EmptyString => false
      | String d s' => Ascii.eqb c d && startswith s' p'
      end
  end.

(** [s[n:]] *)
Fixpoint drop (n : nat) (s : string) : string :=
  match n, s with
  | O, _ => s
  | S _, EmptyString => EmptyString
  | S n', String _ s' => drop n' s'
  end.

(** [s.endswith(p)] *)
Definition endswith (s p : string) : bool :=
  (String.length p <=? String.length s)%nat
  && String.eqb (drop (String.length s - String.length p) s) p.

(** [needle in hay] on strings: [needle] occurs in [hay] as a contiguous
    run of characters (the empty string occurs in every string). *)
Fixpoint str_in (needle hay : string) : bool :=
  startswith hay needle ||
  match hay with
  | EmptyString => false
  | String _ hay' => str_in needle hay'
  end.

(** [s.replace(old, new)] for a non-empty [old]: the occurrences of [old]
    are replaced from left to right and do not overlap.  [skip] counts the
    characters of an occurrence that are still to be dropped. *)
Fixpoint replace_from (skip : nat) (old new s : string) : string :=
  match s with
  | EmptyString => EmptyString
  | String c s' =>
      match skip with
      | S k => replace_from k old new s'
      | O =>
          if startswith s old
          then (new ++ replace_from (String.length old - 1) old new s')%string
          else String c (replace_from 0 old new s')
      end
  end.

(** With an empty [old] Python inserts [new] before every character and at
    the end. *)
Fixpoint intersperse (new s : string) : string :=
  match s with
  | EmptyString => new
  | String c s' => (new ++ String c (intersperse new s'))%string
  end.

Definition replace (s old new : string) : string :=
  match old with
  | EmptyString => intersperse new s
  | _ => replace_from 0 old new s
  end.

(** [s.split(sep)] for a non-empty [sep]: the result is never empty, the
    separators are found from left to right and do not overlap. *)
Fixpoint split_from (skip : nat) (sep s : string) : list string :=
  match s with
  | EmptyString => [EmptyString]
  | String c s' =>
      match skip with
      | S k => split_from k sep s'
      | O =>
          if startswith s sep
          then EmptyString :: split_from (String.length sep - 1) sep s'
          else
            match split_from 0 sep s' with
            | seg :: segs => String c seg :: segs
            | [] => [String c EmptyString]
            end
      end
  end.

Definition split (s sep : string) : list string := split_from 0 sep s.

(** [c.lower()] for a character of the Latin-1 range: the letters A-Z and
    the capital letters U+00C0..U+00DE, the multiplication sign U+00D7
    apart, move 32 code points up. *)
Definition lower_char (c : ascii) : ascii :=
  let n := nat_of_ascii c in
  if (((65 <=? n) && (n <=? 90))
      || ((192 <=? n) && (n <=? 222) && negb (n =? 215)))%nat
  then ascii_of_nat (n + 32)
  else c.

(** [s.lower()] *)
Fixpoint lower (s : string) : string :=
  match s with
  | EmptyString => EmptyString
  | String c s' => String (lower_char c) (lower s')
  end.

(** [posixpath.join(a, b)] *)
Definition join (a b : string) : string :=
  if startswith b "/" then b
  else if String.eqb a "" || endswith a "/" then (a ++ b)%string
  else (a ++ "/" ++ b)%string.

End Py.

(** ** [fnmatch.fnmatch] on a POSIX host

    [fnmatch.translate] turns a pattern into a regular expression that has
    to match the whole name.  The embedding keeps the same reading of a
    pattern, as a list of tokens: [*] is any run of characters, [?] one
    character, [[seq]] one character of a class, [[!seq]] one character out
    of it, and every other character stands for itself.  An opening bracket
    with no closing bracket stands for itself. *)

Module Fnmatch.

Inductive item : Type :=
| One (c : ascii)
| Range (lo hi : ascii).

Inductive token : Type :=
| Star
| AnyChar
| Class (negated : bool) (items : list item)
| Lit (c : ascii).

(** The body of a class, between the brackets: [x-y] is a range when both
    ends are there, any other character stands for itself.  A range whose
    upper end is below its lower end holds no character ([translate]
    removes it from the expression). *)
Fixpoint class_items (s : list ascii) : list item :=
  match s with
  | [] => []
  | c :: s' =>
      match s' with
      | d :: hi :: s'' =>
          if Ascii.eqb d "-" then Range c hi :: class_items s''
          else One c :: class_items s'
      | _ => One c :: class_items s'
      end
  end.

(** The characters up to the next closing bracket, when there is one. *)
Fixpoint until_close (s : list ascii) : option (list ascii) :=
  match s with
  | [] => None
  | c :: s' =>
      if Ascii.eqb c "]" then Some []
      else option_map (cons c) (until_close s')
  end.

(** What follows an opening bracket: an optional [!], then the body of the
    class, in which a closing bracket in first position stands for itself. *)
Definition bracket (s : list ascii) : option (bool * list ascii) :=
  let '(neg, r) :=
    match s with
    | c :: r => if Ascii.eqb c "!" then (true, r) else (false, s)
    | [] => (false, s)
    end in
  match r with
  | c :: r' =>
      if Ascii.eqb c "]"
      then option_map (fun b => (neg, c :: b)) (until_close r')
      else option_map (fun b => (neg, b)) (until_close r)
  | [] => None
  end.

(** The tokens of a pattern.  [skip] counts the characters of a class that
    are still to be passed over. *)
Fixpoint tokens_from (skip : nat) (p : list ascii) : list token :=
  match p with
  | [] => []
  | c :: p' =>
      match skip with
      | S k => tokens_from k p'
      | O =>
          if Ascii.eqb c "*" then Star :: tokens_from 0 p'
          else if Ascii.eqb c "?" then AnyChar :: tokens_from 0 p'
          else if Ascii.eqb c "[" then
            match bracket p' with
            | Some (neg, body) =>
                Class neg (class_items body)
                  :: tokens_from ((if neg then 1 else 0) + List.length body + 1) p'
            | None => Lit c :: tokens_from 0 p'
            end
          else Lit c :: tokens_from 0 p'
      end
  end.

Definition in_item (ch : ascii) (it : item) : bool :=
  match it with
  | One c => Ascii.eqb c ch
  | Range lo hi =>
      ((nat_of_ascii lo <=? nat_of_ascii ch)
       && (nat_of_ascii ch <=? nat_of_ascii hi))%nat
  end.

(** The whole of [s] is matched by the tokens. *)
Fixpoint matches (toks : list token) (s : list ascii) : bool :=
  match toks with
  | [] => match s with [] => true | _ :: _ => false end
  | Star :: toks' =>
      (fix star (t : list ascii) : bool :=
         matches toks' t || match t with [] => false | _ :: t' => star t' end) s
  | AnyChar :: toks' =>
      match s with [] => false | _ :: s' => matches toks' s' end
  | Class neg items :: toks' =>
      match s with
      | [] => false
      | ch :: s' => xorb neg (existsb (in_item ch) items) && matches toks' s'
      end
  | Lit c :: toks' =>
      match s with [] => false | ch :: s' => Ascii.eqb c ch && matches toks' s' end
  end.

(** [fnmatch.fnmatch(name, pat)] *)
Definition fnmatch (name pat : string) : bool :=
  matches (tokens_from 0 (list_ascii_of_string pat)) (list_ascii_of_string name).

End Fnmatch.

(** ** The session, the logger and the events of a run *)

(** An entry of a listing, with the two names the module reads. *)
Record SharedFile : Type := {
  get_shortname : string;
  get_longname : string
}.

(** What a listing request gives: the entries, or an exception with its
    message. *)
Inductive listing : Type :=
| Entries (contents : list SharedFile)
| Raises (msg : string).

(** [connection.conn]: the SMB session, of which the module only calls
    [listPath(shareName, path)]. *)
Record SMBConnection : Type := {
  listPath : string -> string -> listing
}.

(** [connection]: the fields the module reads. *)
Record Connection : Type := {
  host : string;
  kerberos : bool;
  hostname : string;
  domain : string;
  conn : SMBConnection
}.

(** The methods of [context.log] the module calls. *)
Inductive level : Type := info | highlight | debug | fail.

(** What a run does, in order: the listing requests sent over the session
    and the lines written to the logger.  [Enter] and [Leave] are ghost
    events that mark the start and the end of every activation of
    [_recursive_match], so that the call stack can be read off the trace. *)
Inductive event : Type :=
| Request (shareName path : string)
| Log (lvl : level) (msg : string)
| Enter (current_path : string) (remaining_paths : list string)
| Leave.

(** A computation returns a value and the events it produced. *)
Definition M (A : Type) : Type := (A * list event)%type.

Definition ret {A : Type} (a : A) : M A := (a, []).

Definition bind {A B : Type} (m : M A) (k : A -> M B) : M B :=
  let (b, t) := k (fst m) in (b, snd m ++ t).

Definition tell (e : event) : M unit := (tt, [e]).

Notation "x <- m ;; k" := (bind m (fun x => k))
  (at level 61, m at next level, right associativity).
Notation "m ;; k" := (bind m (fun _ => k))
  (at level 61, right associativity).

Definition value {A : Type} (m : M A) : A := fst m.
Definition trace {A : Type} (m : M A) : list event := snd m.

(** [connection.conn.listPath(shareName, path)], recorded in the trace. *)
Definition request (connection : Connection) (shareName path : string) : M listing :=
  tell (Request shareName path) ;;
  ret (listPath (conn connection) shareName path).

(** A Python [for] loop whose body may [break]. *)
Inductive control : Type := Continue | Break.

Fixpoint for_ {A : Type} (l : list A) (body : A -> M control) : M unit :=
  match l with
  | [] => ret tt
  | a :: l' =>
      c <- body a ;;
      match c with
      | Break => ret tt
      | Continue => for_ l' body
      end
  end.

(** The values [_recursive_match] returns: a list of paths or a boolean. *)
Inductive pyval : Type :=
| PyList (l : list string)
| PyBool (b : bool).

(** The truth value Python gives them in an [if]. *)
Definition truthy (v : pyval) : bool :=
  match v with
  | PyList [] => false
  | PyList (_ :: _) => true
  | PyBool b => b
  end.

(** ** The catalog *)

Record Product : Type := {
  paths : list string;
  pipes : list string
}.

(** A [dict] from product names to products, in insertion order. *)
Definition Catalog : Type := list (string * Product).

(** The table of [on_login].  The paths are raw strings: every separator
    is two backslashes. *)
Definition password_managers : Catalog :=
  [ ("LastPass",
      {| paths := ["C:\\Program Files (x86)\\LastPass";
                   "C:\\ProgramData\\LastPass"];
         pipes := ["LASTPASS_"] |});
    ("Dashlane",
      {| paths := ["C:\\Program Files (x86)\\Dashlane";
                   "C:\\ProgramData\\Dashlane"];
         pipes := [] |});
    ("1Password",
      {| paths := ["C:\\Users\\*\\AppData\\*\\1Password";
                   "C:\\Program Files\\1Password";
                   "C:\\Program Files (x86)\\1Password"];
         pipes := [] |});
    ("Bitwarden",
      {| paths := ["C:\\Program Files\\Bitwarden";
                   "C:\\Users\\*\\AppData\\Local\\Bitwarden"];
         pipes := [] |});
    ("KeePass",
      {| paths := ["C:\\Program Files\\KeePass*";
                   "C:\\Program Files (x86)\\KeePass*"];
         pipes := [] |});
    ("EnPass",
      {| paths := ["C:\\Program Files\\Enpass";
                   "C:\\Program Files (x86)\\Enpass"];
         pipes := ["-enpass-"] |}) ].

(** ** The module *)

(** [_get_target] *)
Definition _get_target (connection : Connection) : string :=
  if negb (kerberos connection) then host connection
  else (hostname connection ++ "." ++ domain connection)%string.

(** The path [_recursive_match] lists for a directory:
    [current_path.replace("C:", "") + "/*"]. *)
Definition listing_path (current_path : string) : string :=
  (Py.replace current_path "C:" "" ++ "/*")%string.

(** The list comprehension of [_recursive_match]. *)
Definition matched_dirs (current_path next_path : string)
    (contents : list SharedFile) : list string :=
  map (fun item => Py.join current_path (get_shortname item))
      (filter (fun item => Fnmatch.fnmatch (get_shortname item) next_path)
              contents).

(** The loop of [_recursive_match] over the matched directories, [recurse]
    being the recursive call on the remaining segments: the first truthy
    answer returns [True], and [False] is returned when the list runs out. *)
Fixpoint recurse_into (recurse : string -> M pyval) (dirs : list string) : M pyval :=
  match dirs with
  | [] => ret (PyBool false)
  | matched_dir :: dirs' =>
      r <- recurse matched_dir ;;
      if negb (truthy r) then recurse_into recurse dirs'
      else ret (PyBool true)
  end.

(** [_recursive_match].  The bare [except] around the listing request turns
    every failure of it into [False].  The local [matched_paths] of the
    source is never read and is left out. *)
Fixpoint _recursive_match (connection : Connection) (current_path : string)
    (remaining_paths : list string) {struct remaining_paths} : M pyval :=
  tell (Enter current_path remaining_paths) ;;
  r <- match remaining_paths with
       | [] => ret (PyList [current_path])
       | next_path :: rest =>
           contents <- request connection "C$" (listing_path current_path) ;;
           match contents with
           | Raises _ => ret (PyBool false)
           | Entries contents =>
               recurse_into
                 (fun matched_dir => _recursive_match connection matched_dir rest)
                 (matched_dirs current_path next_path contents)
           end
       end ;;
  tell Leave ;;
  ret r.

Definition installed_line (name : string) : string :=
  ("Password manager installed: " ++ name)%string.

Definition running_line (name : string) : string :=
  ("Password manager RUNNING: " ++ name)%string.

(** The body of the [try] of [_detect_password_managers], for one path of
    one product.  [path_segments[0]] is the only expression of it that can
    raise, on an empty list; the handler logs and the loop goes on. *)
Definition check_path (connection : Connection) (name path : string) : M control :=
  let path_segments := Py.split path "\\" in
  match path_segments with
  | [] =>
      tell (Log debug ("Failed to check path " ++ path
                       ++ ": list index out of range")%string) ;;
      ret Continue
  | base_path :: remaining_paths =>
      r <- _recursive_match connection base_path remaining_paths ;;
      if truthy r then
        tell (Log highlight (installed_line name)) ;;
        ret Break
      else ret Continue
  end.

(** [_detect_password_managers] *)
Definition _detect_password_managers (connection : Connection)
    (password_managers : Catalog) : M unit :=
  tell (Log info ("Checking for known password manager file paths on "
                  ++ host connection ++ "...")%string) ;;
  for_ password_managers (fun '(name, product) =>
    for_ (paths product) (check_path connection name) ;;
    ret Continue).

(** The test of [_detect_running_processes] for one identifier and one
    listed name: [pipe.lower() in fl.lower()]. *)
Definition pipe_matches (pipe fl : string) : bool :=
  Py.str_in (Py.lower pipe) (Py.lower fl).

(** [_detect_running_processes].  Only the listing request can raise
    inside the [try]; its message goes to [context.log.fail]. *)
Definition _detect_running_processes (connection : Connection)
    (password_managers : Catalog) : M unit :=
  tell (Log info ("Detecting running processes on " ++ host connection
                  ++ " by enumerating pipes...")%string) ;;
  fs <- request connection "IPC$" "\*" ;;
  match fs with
  | Raises e => tell (Log fail e)
  | Entries fs =>
      for_ fs (fun f =>
        let fl := get_longname f in
        for_ password_managers (fun '(name, product) =>
          for_ (pipes product) (fun pipe =>
            if pipe_matches pipe fl then
              tell (Log highlight (running_line name)) ;;
              ret Break
            else ret Continue) ;;
          ret Continue) ;;
        ret Continue)
  end.

(** [on_login] *)
Definition on_login (connection : Connection) : M unit :=
  let target := _get_target connection in
  tell (Log info ("Analyzing target: " ++ target)%string) ;;
  _detect_running_processes connection password_managers ;;
  _detect_password_managers connection password_managers.

(** A [dict] from strings to lists, as the values of [results] are. *)
Fixpoint dict_get {A : Type} (key : string) (d : list (string * A)) : option A :=
  match d with
  | [] => None
  | (k, v) :: d' => if String.eqb k key then Some v else dict_get key d'
  end.

(** [key in data and len(data[key]) > 0] *)
Definition has_items (key : string) (data : list (string * list string)) : bool :=
  match dict_get key data with
  | Some (_ :: _) => true
  | _ => false
  end.

(** [dump_results].  No function of the module calls it. *)
Definition dump_results (results : list (string * list (string * list string))) : M unit :=
  match results with
  | [] => tell (Log highlight "No password managers detected.")
  | _ :: _ =>
      for_ results (fun '(manager, data) =>
        let message := ("Password manager detected: " ++ manager)%string in
        let message :=
          if has_items "paths" data then (message ++ " (Paths detected)")%string
          else message in
        let message :=
          if has_items "pipes" data then (message ++ " - RUNNING!")%string
          else message in
        tell (Log highlight message) ;;
        ret Continue)
  end.

(** ** The resolver and the scanner as the specification describes them

    The definitions of this part follow the words of the specification,
    not the control flow of the code; the theorems compare the two. *)

(** The children of [dir] the segment [seg] selects: the entries of its
    listing whose name matches, joined to [dir]; none when the listing
    fails. *)
Definition children (connection : Connection) (seg dir : string) : list string :=
  match listPath (conn connection) "C$" (listing_path dir) with
  | Raises _ => []
  | Entries contents => matched_dirs dir seg contents
  end.

(** One level of the breadth-first expansion. *)
Definition expand (connection : Connection) (seg : string)
    (dirs : list string) : list string :=
  flat_map (children connection seg) dirs.

(** The resolution frontier after the segments [segs], from the
    directories [dirs]. *)
Definition frontier (connection : Connection) (dirs segs : list string) : list string :=
  fold_left (fun dirs seg => expand connection seg dirs) segs dirs.

(** [resolves_to connection dir segs p]: [p] is a concrete path that the
    segments [segs] match below [dir], every step of it being an entry
    of the listing of the directory above it. *)
Inductive resolves_to (connection : Connection) :
    string -> list string -> string -> Prop :=
| resolves_here (dir : string) :
    resolves_to connection dir [] dir
| resolves_step (dir seg : string) (rest : list string)
    (contents : list SharedFile) (item : SharedFile) (p : string) :
    listPath (conn connection) "C$" (listing_path dir) = Entries contents ->
    In item contents ->
    Fnmatch.fnmatch (get_shortname item) seg = true ->
    resolves_to connection (Py.join dir (get_shortname item)) rest p ->
    resolves_to connection dir (seg :: rest) p.

(** The pattern, once split into its root and its segments, resolves to
    the concrete path [p]. *)
Definition pattern_matches (connection : Connection) (pattern p : string) : Prop :=
  match Py.split pattern "\\" with
  | [] => False
  | base_path :: remaining_paths =>
      resolves_to connection base_path remaining_paths p
  end.

(** Case-insensitive equality of two strings, character by character. *)
Inductive same_ignoring_case : string -> string -> Prop :=
| same_empty : same_ignoring_case "" ""
| same_char (a b : ascii) (s t : string) :
    Py.lower_char a = Py.lower_char b ->
    same_ignoring_case s t ->
    same_ignoring_case (String a s) (String b t).

(** [identifier] is a case-insensitive substring of [name]. *)
Definition ci_substring (identifier name : string) : Prop :=
  exists before middle after : string,
    name = (before ++ middle ++ after)%string
    /\ same_ignoring_case identifier middle.

(** The names the listing of the pipes gives; none when it fails. *)
Definition listed_pipes (connection : Connection) : list SharedFile :=
  match listPath (conn connection) "IPC$" "\*" with
  | Entries fs => fs
  | Raises _ => []
  end.

(** ** Reading a run *)

(** The resolver, as [_detect_password_managers] uses it on a pattern: the
    pattern is split, and the answer of [_recursive_match] is read as a
    truth value by the [if]. *)
Definition resolve_run (connection : Connection) (pattern : string) : M pyval :=
  match Py.split pattern "\\" with
  | [] => ret (PyBool false)
  | base_path :: remaining_paths =>
      _recursive_match connection base_path remaining_paths
  end.

Definition resolve (connection : Connection) (pattern : string) : bool :=
  truthy (value (resolve_run connection pattern)).

(** One of the patterns of the product resolves. *)
Definition product_installed (connection : Connection) (product : Product) : bool :=
  existsb (resolve connection) (paths product).

(** One of the identifiers of the product occurs in the listed name. *)
Definition product_runs (product : Product) (fl : string) : bool :=
  existsb (fun pipe => pipe_matches pipe fl) (pipes product).

Definition is_break (c : control) : bool :=
  match c with Break => true | Continue => false end.

(** The elements of a list up to and including the first that satisfies
    [P]: the ones a loop visits when it stops there. *)
Fixpoint upto_first {A : Type} (P : A -> bool) (l : list A) : list A :=
  match l with
  | [] => []
  | a :: l' => if P a then [a] else a :: upto_first P l'
  end.

(** The depth of the call stack at every activation of [_recursive_match]
    of a trace, with the segments that activation was given; [d] is the
    depth at the start of the trace. *)
Fixpoint activations (d : nat) (t : list event) : list (nat * list string) :=
  match t with
  | [] => []
  | Enter _ remaining_paths :: t' => (d, remaining_paths) :: activations (S d) t'
  | Leave :: t' => activations (pred d) t'
  | _ :: t' => activations d t'
  end.

(** The recursion depth of a trace: the depth of its deepest activation,
    the first call being at depth 0. *)
Definition recursion_depth (t : list event) : nat :=
  list_max (map fst (activations 0 t)).

Definition is_request (e : event) : bool :=
  match e with Request _ _ => true | _ => false end.

(** The lines written at the level [highlight], in order. *)
Fixpoint highlights (t : list event) : list string :=
  match t with
  | [] => []
  | Log highlight msg :: t' => msg :: highlights t'
  | _ :: t' => highlights t'
  end.

(** How many times [line] was written at the level [highlight]. *)
Definition count_highlight (line : string) (t : list event) : nat :=
  List.length (filter (String.eqb line) (highlights t)).

(** Every product is reported as running at most once in a run. *)
Definition reported_running_at_most_once (connection : Connection)
    (catalog : Catalog) : Prop :=
  forall name,
    count_highlight (running_line name)
      (trace (_detect_running_processes connection catalog)) <= 1.

(** ** Remote hosts for the scenarios *)

(** An entry whose two names are the same, as SMB2 and SMB3 give them. *)
Definition entry (name : string) : SharedFile :=
  {| get_shortname := name; get_longname := name |}.

(** A host given by the listings of its [C$] share, path by path, and by
    the listing of its pipes; every other request raises. *)
Definition remote (c_share : list (string * listing)) (ipc : listing) : SMBConnection :=
  {| listPath := fun shareName path =>
       if String.eqb shareName "C$" then
         match dict_get path c_share with
         | Some l => l
         | None => Raises "STATUS_OBJECT_NAME_NOT_FOUND"
         end
       else if String.eqb shareName "IPC$" && String.eqb path "\*" then ipc
       else Raises "STATUS_BAD_NETWORK_NAME" |}.

Definition session (c : SMBConnection) : Connection :=
  {| host := "10.0.0.5"; kerberos := false;
     hostname := "WS01"; domain := "corp.local"; conn := c |}.

(** KeePass 2 is installed, nothing runs. *)
Definition keepass_files : list (string * listing) :=
  [ ("/*", Entries [entry "Program Files"]);
    ("/Program Files/*", Entries [entry "KeePass2"; entry "Other"]) ].

Definition keepass_host : Connection :=
  session (remote keepass_files (Entries [])).

Definition keepass_catalog : Catalog :=
  [ ("KeePass", {| paths := ["C:\\Program Files\\KeePass*"]; pipes := [] |}) ].

(** The same files, and a session that may not list the pipes. *)
Definition no_ipc_host : Connection :=
  session (remote keepass_files (Raises "STATUS_ACCESS_DENIED")).

(** Two pipes of one LastPass process, no file of any product. *)
Definition lastpass_host : Connection :=
  session (remote [("/*", Entries [entry "Windows"])]
                  (Entries [entry "lastpass_123"; entry "LASTPASS_server_pipe"])).

(** Nothing installed, nothing running. *)
Definition quiet_host : Connection :=
  session (remote [("/*", Entries [entry "Windows"])] (Entries [entry "lsass"])).

(** Two profiles: the listing of the first is denied, the second holds a
    Bitwarden directory. *)
Definition profiles_host : Connection :=
  session (remote
    [ ("/*", Entries [entry "Users"]);
      ("/Users/*", Entries [entry "alice"; entry "bob"]);
      ("/Users/alice/*", Raises "STATUS_ACCESS_DENIED");
      ("/Users/bob/*", Entries [entry "AppData"]);
      ("/Users/bob/AppData/*", Entries [entry "Local"]);
      ("/Users/bob/AppData/Local/*", Entries [entry "Bitwarden"]) ]
    (Entries [])).

(** One profile, whose [AppData] holds no directory with 1Password. *)
Definition empty_appdata_host : Connection :=
  session (remote
    [ ("/*", Entries [entry "Users"]);
      ("/Users/*", Entries [entry "carol"]);
      ("/Users/carol/*", Entries [entry "AppData"; entry "Desktop"]);
      ("/Users/carol/AppData/*", Entries []) ]
    (Entries [])).

(** ** Further readings of the code *)

(** The line [dump_results] writes for one manager and its data. *)
Definition result_line (manager : string) (data : list (string * list string)) : string :=
  ("Password manager detected: " ++ manager
   ++ (if has_items "paths" data then " (Paths detected)" else "")
   ++ (if has_items "pipes" data then " - RUNNING!" else ""))%string.

(** The characters [fnmatch] reads as something else than themselves. *)
Definition is_meta (c : ascii) : bool :=
  Ascii.eqb c "*" || Ascii.eqb c "?" || Ascii.eqb c "[".

(** A pattern segment with no such character. *)
Fixpoint literal (p : string) : bool :=
  match p with
  | EmptyString => true
  | String c p' => negb (is_meta c) && literal p'
  end.

(** The direct check that the directories [names] exist one below the
    other from [dir]: every listing succeeds and holds an entry of exactly
    the next name. *)
Fixpoint path_exists (connection : Connection) (dir : string)
    (names : list string) : bool :=
  match names with
  | [] => true
  | name :: rest =>
      match listPath (conn connection) "C$" (listing_path dir) with
      | Raises _ => false
      | Entries contents =>
          existsb (fun item => String.eqb (get_shortname item) name) contents
          && path_exists connection (Py.join dir name) rest
      end
  end.

(** The number of listing requests of the breadth-first expansion: one
    for every directory of every frontier that still has a segment to
    match. *)
Fixpoint breadth_first_requests (connection : Connection)
    (dirs segs : list string) {struct segs} : nat :=
  match segs with
  | [] => 0
  | seg :: rest =>
      List.length dirs
      + breadth_first_requests connection (expand connection seg dirs) rest
  end.

(** The requests of a trace, in order. *)
Definition requests (t : list event) : list event := filter is_request t.

(** [sep.join(segs)] *)
Fixpoint str_join (sep : string) (segs : list string) : string :=
  match segs with
  | [] => EmptyString
  | seg :: rest =>
      match rest with
      | [] => seg
      | _ :: _ => (seg ++ sep ++ str_join sep rest)%string
      end
  end.

(** The listings of the share [C$] of [connection'] hold those of
    [connection]: what is listed stays listed, with at least the same
    entries. *)
Definition files_grow (connection connection' : Connection) : Prop :=
  forall path contents,
    listPath (conn connection) "C$" path = Entries contents ->
    exists contents',
      listPath (conn connection') "C$" path = Entries contents'
      /\ incl contents contents'.

(** A listed name that is one component of a path going down: not empty,
    with no separator of [os.path] in it, and neither [.] nor [..]. *)
Definition plain (name : string) : bool :=
  negb (String.eqb name "")
  && negb (Py.str_in "/" name)
  && negb (String.eqb name ".")
  && negb (String.eqb name "..").

(** Every entry of every listing of the share [C$] has such a name. *)
Definition names_are_plain (connection : Connection) : Prop :=
  forall path contents item,
    listPath (conn connection) "C$" path = Entries contents ->
    In item contents ->
    plain (get_shortname item) = true.

(** The path of the directory reached from [dir] by going down through
    the components [names]. *)
Definition below (dir : string) (names : list string) : string :=
  fold_left (fun d name => (d ++ "/" ++ name)%string) names dir.

(** The upper case of the letters a-z, every other character unchanged. *)
Definition ascii_upper_char (c : ascii) : ascii :=
  let n := nat_of_ascii c in
  if ((97 <=? n) && (n <=? 122))%nat then ascii_of_nat (n - 32) else c.

Fixpoint ascii_upper (s : string) : string :=
  match s with
  | EmptyString => EmptyString
  | String c s' => String (ascii_upper_char c) (ascii_upper s')
  end.

(** The product with its identifiers written in upper case. *)
Definition upper_identifiers (np : string * Product) : string * Product :=
  (fst np, {| paths := paths (snd np); pipes := map ascii_upper (pipes (snd np)) |}).

(** The entry with its long name written in upper case. *)
Definition upper_longname (f : SharedFile) : SharedFile :=
  {| get_shortname := get_shortname f; get_longname := ascii_upper (get_longname f) |}.

(** 1Password installed for all users, in both program directories. *)
Definition onepassword_host : Connection :=
  session (remote
    [ ("/*", Entries [entry "Program Files"; entry "Program Files (x86)"]);
      ("/Program Files/*", Entries [entry "1Password"]);
      ("/Program Files (x86)/*", Entries [entry "1Password"]) ]
    (Entries [])).

(** A catalog with a product whose first pattern is a root alone. *)
Definition vault_catalog : Catalog :=
  [ ("KeePass",
      {| paths := ["C:\\Program Files\\KeePass*";
                   "C:\\Program Files (x86)\\KeePass*"];
         pipes := [] |});
    ("Vault", {| paths := ["C:"; "C:\\Windows"]; pipes := [] |});
    ("EnPass",
      {| paths := ["C:\\Program Files\\Enpass";
                   "C:\\Program Files (x86)\\Enpass"];
         pipes := ["-enpass-"] |}) ].

(** The host of [lastpass_host] with the names of its pipes in upper
    case. *)
Definition shouting_host : Connection :=
  session (remote [("/*", Entries [entry "Windows"])]
                  (Entries (map upper_longname
                              [entry "lastpass_123"; entry "LASTPASS_server_pipe"]))).

(** A profile directory whose listing holds the entries [.] and [..]. *)
Definition dotted_host : Connection :=
  session (remote
    [ ("/Users/*", Entries [entry "."; entry ".."; entry "bob"]);
      ("/Users/../*", Entries [entry "Secret"; entry "Users"]) ]
    (Entries [])).

(** KeePass 2 next to more programs, with pipes listed. *)
Definition busy_host : Connection :=
  session (remote
    [ ("/*", Entries [entry "Program Files"; entry "Users"; entry "Windows"]);
      ("/Program Files/*",
         Entries [entry "7-Zip"; entry "KeePass2"; entry "Other"]);
      ("/Users/*", Entries [entry "dave"]) ]
    (Entries [entry "lsass"; entry "wkssvc"])).

(** The session of [keepass_host] opened with Kerberos. *)
Definition kerberos_host : Connection :=
  {| host := "10.0.0.5"; kerberos := true;
     hostname := "WS01"; domain := "corp.local";
     conn := remote keepass_files (Entries []) |}.

(** ** The monad *)

Section Monad.

Context {A B : Type}.

Lemma value_bind (m : M A) (k : A -> M B) :
  value (bind m k) = value (k (value m)).
Proof. unfold value, bind. destruct (k (fst m)). reflexivity. Qed.

Lemma trace_bind (m : M A) (k : A -> M B) :
  trace (bind m k) = trace m ++ trace (k (value m)).
Proof. unfold trace, value, bind. destruct (k (fst m)). reflexivity. Qed.

End Monad.

Lemma trace_tell (e : event) : trace (tell e) = [e].
Proof. reflexivity. Qed.

Lemma trace_ret {A : Type} (a : A) : trace (ret a) = [].
Proof. reflexivity. Qed.

Lemma value_ret {A : Type} (a : A) : value (ret a) = a.
Proof. reflexivity. Qed.

Ltac run_monad :=
  repeat (rewrite ?value_bind, ?trace_bind, ?trace_tell, ?trace_ret, ?value_ret;
          cbn [app]).

(** ** The equations of [_recursive_match] *)

Lemma recurse_into_value (recurse : string -> M pyval) (dirs : list string) :
  value (recurse_into recurse dirs)
  = PyBool (existsb (fun d => truthy (value (recurse d))) dirs).
Proof.
  induction dirs as [|d dirs IH]; [reflexivity|].
  cbn [recurse_into existsb]. rewrite value_bind.
  destruct (truthy (value (recurse d))); cbn [negb orb]; [reflexivity|exact IH].
Qed.

Lemma recurse_into_trace (recurse : string -> M pyval) (dirs : list string) :
  trace (recurse_into recurse dirs)
  = flat_map (fun d => trace (recurse d))
             (upto_first (fun d => truthy (value (recurse d))) dirs).
Proof.
  induction dirs as [|d dirs IH]; [reflexivity|].
  cbn [recurse_into upto_first]. rewrite trace_bind.
  destruct (truthy (value (recurse d))); cbn [negb flat_map].
  - rewrite trace_ret. reflexivity.
  - rewrite IH. reflexivity.
Qed.

Lemma _recursive_match_nil (connection : Connection) (current_path : string) :
  _recursive_match connection current_path []
  = (PyList [current_path], [Enter current_path []; Leave]).
Proof. reflexivity. Qed.

Lemma _recursive_match_value (connection : Connection)
    (current_path next_path : string) (rest : list string) :
  value (_recursive_match connection current_path (next_path :: rest))
  = PyBool (existsb
              (fun d => truthy (value (_recursive_match connection d rest)))
              (children connection next_path current_path)).
Proof.
  cbn [_recursive_match]. unfold request, children. run_monad.
  destruct (listPath _ _ _); run_monad; [|reflexivity].
  apply recurse_into_value.
Qed.

Lemma _recursive_match_trace (connection : Connection)
    (current_path next_path : string) (rest : list string) :
  trace (_recursive_match connection current_path (next_path :: rest))
  = Enter current_path (next_path :: rest)
    :: Request "C$" (listing_path current_path)
    :: flat_map (fun d => trace (_recursive_match connection d rest))
         (upto_first
            (fun d => truthy (value (_recursive_match connection d rest)))
            (children connection next_path current_path))
    ++ [Leave].
Proof.
  cbn [_recursive_match]. unfold request, children. run_monad.
  destruct (listPath _ _ _); run_monad; [|reflexivity].
  rewrite recurse_into_trace. reflexivity.
Qed.

(** ** The frontier *)

Lemma firstn_plus {A : Type} (j k : nat) (l : list A) :
  firstn (j + k) l = firstn j l ++ firstn k (skipn j l).
Proof.
  revert l. induction j as [|j IH]; intros l; [reflexivity|].
  destruct l as [|a l]; cbn.
  - rewrite firstn_nil. reflexivity.
  - rewrite IH. reflexivity.
Qed.

Section Frontier.

Variable connection : Connection.

Lemma frontier_nil (segs : list string) : frontier connection [] segs = [].
Proof. induction segs as [|seg segs IH]; [reflexivity|exact IH]. Qed.

Lemma frontier_app (dirs1 dirs2 segs : list string) :
  frontier connection (dirs1 ++ dirs2) segs
  = frontier connection dirs1 segs ++ frontier connection dirs2 segs.
Proof.
  revert dirs1 dirs2.
  induction segs as [|seg segs IH]; intros dirs1 dirs2; [reflexivity|].
  cbn [frontier fold_left]. unfold expand. rewrite flat_map_app. apply IH.
Qed.

Lemma frontier_single (dir seg : string) (rest : list string) :
  frontier connection [dir] (seg :: rest)
  = frontier connection (children connection seg dir) rest.
Proof.
  cbn [frontier fold_left]. unfold expand. cbn [flat_map].
  rewrite app_nil_r. reflexivity.
Qed.

Lemma frontier_snoc (dirs segs : list string) (seg : string) :
  frontier connection dirs (segs ++ [seg])
  = expand connection seg (frontier connection dirs segs).
Proof. unfold frontier. rewrite fold_left_app. reflexivity. Qed.

Lemma in_frontier (dirs segs : list string) (q : string) :
  In q (frontier connection dirs segs)
  <-> exists d, In d dirs /\ In q (frontier connection [d] segs).
Proof.
  induction dirs as [|d dirs IH].
  - rewrite frontier_nil. split; [intros []|intros (d & [] & _)].
  - change (d :: dirs) with ([d] ++ dirs). rewrite frontier_app, in_app_iff, IH.
    split.
    + intros [H|(d' & Hd' & H)].
      * exists d. split; [left; reflexivity|exact H].
      * exists d'. split; [right; exact Hd'|exact H].
    + intros (d' & [<-|Hd'] & H); [left; exact H|].
      right. exists d'. split; assumption.
Qed.

(** Once a frontier is empty it stays empty. *)
Lemma frontier_firstn_nil (dirs segs : list string) (i j : nat) :
  j <= i ->
  frontier connection dirs (firstn j segs) = [] ->
  frontier connection dirs (firstn i segs) = [].
Proof.
  intros Hji Hj.
  replace (firstn i segs) with (firstn j segs ++ firstn (i - j) (skipn j segs)).
  - unfold frontier in *. rewrite fold_left_app, Hj. apply frontier_nil.
  - replace i with (j + (i - j)) at 2 by lia.
    rewrite firstn_plus. reflexivity.
Qed.

Lemma in_children (seg dir d : string) :
  In d (children connection seg dir)
  <-> exists contents item,
        listPath (conn connection) "C$" (listing_path dir) = Entries contents
        /\ In item contents
        /\ Fnmatch.fnmatch (get_shortname item) seg = true
        /\ d = Py.join dir (get_shortname item).
Proof.
  unfold children, matched_dirs.
  destruct (listPath _ _ _) as [contents|msg].
  - rewrite in_map_iff. split.
    + intros (item & <- & Hin). apply filter_In in Hin as [Hin Hm].
      exists contents, item. auto.
    + intros (contents' & item & Heq & Hin & Hm & ->).
      injection Heq as <-. exists item. split; [reflexivity|].
      apply filter_In. auto.
  - split; [intros []|]. intros (? & ? & Heq & _). discriminate.
Qed.

(** The frontier holds the paths the pattern resolves to. *)
Lemma in_frontier_resolves (segs : list string) (dir q : string) :
  In q (frontier connection [dir] segs) <-> resolves_to connection dir segs q.
Proof.
  revert dir. induction segs as [|seg rest IH]; intros dir.
  - cbn. split.
    + intros [<-|[]]. constructor.
    + intros H. inversion H. left. reflexivity.
  - rewrite frontier_single, in_frontier. split.
    + intros (d & Hd & Hq). apply in_children in Hd.
      destruct Hd as (contents & item & Hl & Hin & Hm & ->).
      apply IH in Hq. econstructor; eassumption.
    + intros H. inversion H as [|? ? ? contents item ? Hl Hin Hm Hr]; subst.
      exists (Py.join dir (get_shortname item)). split.
      * apply in_children. exists contents, item. auto.
      * apply IH. exact Hr.
Qed.

(** The depth-first search of the code and the breadth-first expansion
    of the specification agree. *)
Lemma truthy_iff_frontier (segs : list string) (dir : string) :
  truthy (value (_recursive_match connection dir segs)) = true
  <-> exists q, In q (frontier connection [dir] segs).
Proof.
  revert dir. induction segs as [|seg rest IH]; intros dir.
  - cbn. split; [intros _; exists dir; left; reflexivity|reflexivity].
  - rewrite _recursive_match_value. cbn [truthy]. rewrite existsb_exists.
    rewrite frontier_single. split.
    + intros (d & Hd & Ht). apply IH in Ht as [q Hq].
      exists q. apply in_frontier. exists d. auto.
    + intros (q & Hq). apply in_frontier in Hq as (d & Hd & Hq).
      exists d. split; [exact Hd|]. apply IH. exists q. exact Hq.
Qed.

Lemma truthy_iff_resolves (segs : list string) (dir : string) :
  truthy (value (_recursive_match connection dir segs)) = true
  <-> exists q, resolves_to connection dir segs q.
Proof.
  rewrite truthy_iff_frontier.
  split; intros [q H]; exists q; apply in_frontier_resolves; exact H.
Qed.

(** With a segment left, the answer is a boolean. *)
Lemma _recursive_match_bool (dir seg : string) (rest : list string) :
  value (_recursive_match connection dir (seg :: rest))
  = PyBool (truthy (value (_recursive_match connection dir (seg :: rest)))).
Proof. rewrite _recursive_match_value. reflexivity. Qed.

End Frontier.

(** ** The resolver decides whether the pattern matches a path *)

Lemma split_from_not_nil (sep s : string) (skip : nat) :
  Py.split_from skip sep s <> [].
Proof.
  revert skip.
  induction s as [|c s IH]; intros skip; cbn [Py.split_from]; [discriminate|].
  destruct skip as [|k]; [|apply IH].
  destruct (Py.startswith _ _); [discriminate|].
  destruct (Py.split_from 0 sep s); discriminate.
Qed.

(** C1. The resolver answers true exactly when the wildcard pattern
    matches at least one concrete path that exists below the root of the
    share, every step of the path being listed in the directory above it.
    On the host where [C:\Program Files] lists [KeePass2] and [Other], the
    detector run on the one product KeePass with the one pattern
    [C:\\Program Files\\KeePass*] reports the product as installed and
    nothing else, and so does the entry point with its own table. *)
Theorem resolve_iff_pattern_matches :
  (forall (connection : Connection) (pattern : string),
      resolve connection pattern = true
      <-> exists p, pattern_matches connection pattern p)
  /\ highlights (trace (_detect_running_processes keepass_host keepass_catalog)
                 ++ trace (_detect_password_managers keepass_host keepass_catalog))
     = ["Password manager installed: KeePass"]
  /\ highlights (trace (on_login keepass_host))
     = ["Password manager installed: KeePass"].
Proof.
  split; [|split; vm_compute; reflexivity].
  intros connection pattern. unfold resolve, resolve_run, pattern_matches.
  destruct (Py.split pattern "\\") as [|base_path remaining_paths] eqn:E.
  - exfalso. exact (split_from_not_nil _ _ _ E).
  - apply truthy_iff_resolves.
Qed.

(** ** The requests and the call stack of a resolution *)

Lemma upto_first_incl {A : Type} (P : A -> bool) (l : list A) (a : A) :
  In a (upto_first P l) -> In a l.
Proof.
  induction l as [|b l IH]; cbn [upto_first]; [intros []|].
  destruct (P b); intros [<-|H]; try (left; reflexivity).
  - destruct H.
  - right. apply IH. exact H.
Qed.

Lemma upto_first_reaches {A : Type} (P : A -> bool) (l : list A) :
  existsb P l = true -> exists a, In a (upto_first P l) /\ P a = true.
Proof.
  induction l as [|b l IH]; cbn [upto_first existsb]; [discriminate|].
  destruct (P b) eqn:E; cbn [orb].
  - intros _. exists b. split; [left; reflexivity|exact E].
  - intros H. destruct (IH H) as (a & Ha & HP).
    exists a. split; [right; exact Ha|exact HP].
Qed.

Section Resolution.

Variable connection : Connection.

(** Every request of a resolution lists a directory of one of the
    frontiers, on the share [C$]. *)
Lemma requests_within_frontier (segs : list string) (dir shareName path : string) :
  In (Request shareName path) (trace (_recursive_match connection dir segs)) ->
  exists i d,
    i < List.length segs
    /\ In d (frontier connection [dir] (firstn i segs))
    /\ shareName = "C$" /\ path = listing_path d.
Proof.
  revert dir. induction segs as [|seg rest IH]; intros dir.
  - rewrite _recursive_match_nil. cbn.
    intros [H|[H|[]]]; discriminate.
  - rewrite _recursive_match_trace.
    intros [H|[H|H]]; [discriminate| |].
    + injection H as <- <-. exists 0, dir. cbn. repeat split; auto. lia.
    + apply in_app_iff in H as [H|[H|[]]]; [|discriminate].
      apply in_flat_map in H as (d' & Hd' & H).
      apply upto_first_incl in Hd'.
      apply IH in H as (i & d & Hi & Hd & -> & ->).
      exists (S i), d. cbn [firstn List.length].
      rewrite frontier_single. repeat split; [lia| ].
      apply in_frontier. exists d'. auto.
Qed.

(** The activations of a resolution: the trace of a call is balanced, so
    what follows it is at the depth the call started from. *)
Lemma activations_app (segs : list string) (dir : string) (d : nat) (k : list event) :
  activations d (trace (_recursive_match connection dir segs) ++ k)
  = activations d (trace (_recursive_match connection dir segs))
    ++ activations d k.
Proof.
  revert dir d k. induction segs as [|seg rest IH]; intros dir d k.
  - rewrite _recursive_match_nil. reflexivity.
  - rewrite _recursive_match_trace.
    set (dirs := upto_first _ _). clearbody dirs.
    cbn [app activations]. f_equal.
    assert (Hflat : forall k',
      activations (S d)
        (flat_map (fun d0 => trace (_recursive_match connection d0 rest)) dirs ++ k')
      = activations (S d)
          (flat_map (fun d0 => trace (_recursive_match connection d0 rest)) dirs)
        ++ activations (S d) k').
    { intros k'. induction dirs as [|d0 dirs IHd]; [reflexivity|].
      cbn [flat_map]. rewrite <- app_assoc, !IH, IHd, app_assoc. reflexivity. }
    rewrite <- app_assoc, !Hflat. cbn [app activations pred].
    rewrite app_nil_r. reflexivity.
Qed.

(** An activation at depth [d'] of a resolution started at depth [d] was
    given the segments that are left after [d' - d] of them. *)
Lemma activations_segments (segs : list string) (dir : string)
    (d d' : nat) (remaining : list string) :
  In (d', remaining) (activations d (trace (_recursive_match connection dir segs))) ->
  d <= d' /\ d' - d <= List.length segs /\ remaining = skipn (d' - d) segs.
Proof.
  revert dir d. induction segs as [|seg rest IH]; intros dir d.
  - rewrite _recursive_match_nil. cbn.
    intros [H|[]]. injection H as <- <-.
    rewrite Nat.sub_diag. repeat split; auto.
  - rewrite _recursive_match_trace.
    set (dirs := upto_first _ _). clearbody dirs.
    cbn [activations]. intros [H|H].
    + injection H as <- <-. rewrite Nat.sub_diag. cbn. repeat split; auto. lia.
    + induction dirs as [|d0 dirs IHd].
      * cbn in H. destruct H.
      * cbn [flat_map] in H. rewrite <- app_assoc, activations_app in H.
        apply in_app_iff in H as [H|H]; [|exact (IHd H)].
        apply IH in H as (Hle & Hlen & ->).
        cbn [List.length]. replace (d' - d) with (S (d' - S d)) by lia.
        cbn [skipn]. repeat split; auto; lia.
Qed.

(** A resolution that answers true went down to the base case, at the
    depth of the number of its segments. *)
Lemma activations_reach_base (segs : list string) (dir : string) (d : nat) :
  truthy (value (_recursive_match connection dir segs)) = true ->
  In (d + List.length segs, [])
     (activations d (trace (_recursive_match connection dir segs))).
Proof.
  revert dir d. induction segs as [|seg rest IH]; intros dir d.
  - intros _. rewrite _recursive_match_nil. cbn. left. f_equal. lia.
  - rewrite _recursive_match_value, _recursive_match_trace. cbn [truthy].
    intros H. apply upto_first_reaches in H as (d0 & Hd0 & Ht).
    set (dirs := upto_first _ _) in *. clearbody dirs.
    cbn [activations]. right.
    induction dirs as [|d1 dirs IHd]; [destruct Hd0|].
    cbn [flat_map]. rewrite <- app_assoc, activations_app. apply in_app_iff.
    destruct Hd0 as [->|Hd0]; [left|right; exact (IHd Hd0)].
    replace (d + List.length (seg :: rest)) with (S d + List.length rest)
      by (cbn [List.length]; lia).
    apply IH. exact Ht.
Qed.

End Resolution.

(** C7. When the frontier is empty after [j] segments, that is when the
    glob of segment [j] selects no child in the whole frontier before it,
    the resolution returns [False], and every request it sent lists a
    directory of a frontier before that one: a parent directory of
    segment [j] or a directory above it, never anything deeper. *)
Theorem empty_frontier_stops_requests
    (connection : Connection) (dir : string) (segs : list string) (j : nat) :
  frontier connection [dir] (firstn j segs) = [] ->
  value (_recursive_match connection dir segs) = PyBool false
  /\ forall shareName path,
       In (Request shareName path) (trace (_recursive_match connection dir segs)) ->
       exists i d,
         i < j
         /\ In d (frontier connection [dir] (firstn i segs))
         /\ shareName = "C$" /\ path = listing_path d.
Proof.
  intros Hempty. split.
  - destruct segs as [|seg rest].
    + rewrite firstn_nil in Hempty. discriminate.
    + rewrite _recursive_match_bool. f_equal.
      apply not_true_is_false. intros Ht.
      apply truthy_iff_frontier in Ht as [q Hq].
      destruct (Nat.le_gt_cases j (List.length (seg :: rest))) as [Hj|Hj].
      * rewrite <- (firstn_all (seg :: rest)) in Hq.
        rewrite (frontier_firstn_nil _ _ _ _ j Hj Hempty) in Hq. destruct Hq.
      * rewrite firstn_all2 in Hempty by lia. rewrite Hempty in Hq. destruct Hq.
  - intros shareName path H.
    apply requests_within_frontier in H as (i & d & Hi & Hd & Hs & Hp).
    exists i, d. repeat split; auto.
    destruct (Nat.lt_ge_cases i j) as [Hlt|Hge]; [exact Hlt|].
    rewrite (frontier_firstn_nil _ _ _ _ j Hge Hempty) in Hd. destruct Hd.
Qed.

Lemma empty_frontier_stops_requests_witness :
  (value (_recursive_match empty_appdata_host "C:"
            ["Users"; "*"; "AppData"; "*"; "1Password"]) = PyBool false
   /\ forall shareName path,
        In (Request shareName path)
           (trace (_recursive_match empty_appdata_host "C:"
                     ["Users"; "*"; "AppData"; "*"; "1Password"])) ->
        exists i d,
          i < 4
          /\ In d (frontier empty_appdata_host ["C:"]
                     (firstn i ["Users"; "*"; "AppData"; "*"; "1Password"]))
          /\ shareName = "C$" /\ path = listing_path d)
  /\ filter is_request
       (trace (_recursive_match empty_appdata_host "C:"
                 ["Users"; "*"; "AppData"; "*"; "1Password"]))
     = [ Request "C$" "/*"; Request "C$" "/Users/*";
         Request "C$" "/Users/carol/*"; Request "C$" "/Users/carol/AppData/*" ].
Proof.
  split.
  - apply (empty_frontier_stops_requests empty_appdata_host "C:"
             ["Users"; "*"; "AppData"; "*"; "1Password"] 4).
    vm_compute. reflexivity.
  - vm_compute. reflexivity.
Defined.

Lemma list_max_ge (l : list nat) (n : nat) : In n l -> n <= list_max l.
Proof.
  intros H. assert (Hall : Forall (fun k => k <= list_max l) l).
  { apply list_max_le. lia. }
  rewrite Forall_forall in Hall. apply Hall. exact H.
Qed.

Lemma list_max_in (l : list nat) : l <> [] -> In (list_max l) l.
Proof.
  induction l as [|a l IH]; [congruence|]. intros _.
  change (list_max (a :: l)) with (Nat.max a (list_max l)).
  destruct l as [|b l].
  - left. cbn. lia.
  - destruct (Nat.max_spec a (list_max (b :: l))) as [[_ ->]|[_ ->]].
    + right. apply IH. discriminate.
    + left. reflexivity.
Qed.

(** Only a resolution that answers true has an activation with no
    segment left. *)
Lemma base_reached_truthy (connection : Connection) (segs : list string)
    (dir : string) (d d' : nat) :
  In (d', []) (activations d (trace (_recursive_match connection dir segs))) ->
  truthy (value (_recursive_match connection dir segs)) = true.
Proof.
  revert dir d. induction segs as [|seg rest IH]; intros dir d; [reflexivity|].
  rewrite _recursive_match_value, _recursive_match_trace. cbn [truthy].
  set (dirs := upto_first _ _).
  assert (Hincl : forall d0, In d0 dirs ->
                    In d0 (children connection seg dir))
    by (intros d0; apply upto_first_incl).
  clearbody dirs. cbn [activations]. intros [H|H]; [discriminate|].
  apply existsb_exists.
  induction dirs as [|d0 dirs IHd]; [destruct H|].
  cbn [flat_map] in H. rewrite <- app_assoc, activations_app in H.
  apply in_app_iff in H as [H|H].
  - exists d0. split; [apply Hincl; left; reflexivity|].
    apply (IH d0 (S d)). exact H.
  - apply IHd; [|exact H]. intros d1 Hd1. apply Hincl. right. exact Hd1.
Qed.

(** The claim C9 as it is written fails: the pattern of 1Password has
    five segments after the root, and on the host with an empty [AppData]
    its resolution stops at depth 3. *)
Lemma resolution_cut_short :
  recursion_depth
    (trace (_recursive_match empty_appdata_host "C:"
              ["Users"; "*"; "AppData"; "*"; "1Password"]))
  <> List.length ["Users"; "*"; "AppData"; "*"; "1Password"].
Proof. vm_compute. discriminate. Qed.

(** C9, amended. A resolution always returns.  Its first call is at depth
    0 and every recursive call is one level deeper with one segment less:
    an activation at depth [d] was given the segments left after the first
    [d].  So the recursion depth is at most the number of segments, and
    the base case, where no segment is left, sits at that depth exactly.
    The answer is true exactly when the last frontier is not empty, and
    exactly then the recursion depth is the number of segments. *)
Theorem resolution_depth_at_most_segment_count
    (connection : Connection) (dir : string) (segs : list string) :
  (exists r t, _recursive_match connection dir segs = (r, t))
  /\ (forall d remaining,
        In (d, remaining)
           (activations 0 (trace (_recursive_match connection dir segs))) ->
        remaining = skipn d segs
        /\ d + List.length remaining = List.length segs
        /\ (remaining = [] <-> d = List.length segs))
  /\ recursion_depth (trace (_recursive_match connection dir segs))
     <= List.length segs
  /\ (truthy (value (_recursive_match connection dir segs)) = true
      <-> frontier connection [dir] segs <> [])
  /\ (recursion_depth (trace (_recursive_match connection dir segs))
      = List.length segs
      <-> frontier connection [dir] segs <> []).
Proof.
  assert (Hfront : truthy (value (_recursive_match connection dir segs)) = true
                   <-> frontier connection [dir] segs <> []).
  { rewrite truthy_iff_frontier. split.
    - intros [q Hq] E. rewrite E in Hq. destruct Hq.
    - intros H. destruct (frontier connection [dir] segs) as [|q l];
        [congruence|]. exists q. left. reflexivity. }
  assert (Hact : forall d remaining,
            In (d, remaining)
               (activations 0 (trace (_recursive_match connection dir segs))) ->
            d <= List.length segs /\ remaining = skipn d segs).
  { intros d remaining H.
    apply activations_segments in H as (_ & Hlen & ->).
    rewrite Nat.sub_0_r in *. auto. }
  assert (Hdepth : recursion_depth (trace (_recursive_match connection dir segs))
                   <= List.length segs).
  { unfold recursion_depth. apply list_max_le, Forall_forall.
    intros d H. apply in_map_iff in H as ([d' remaining] & <- & H).
    apply Hact in H as [H _]. exact H. }
  split; [|split; [|split; [|split]]].
  - destruct (_recursive_match connection dir segs) as [r t]. eauto.
  - intros d remaining H. apply Hact in H as [Hle ->].
    rewrite length_skipn. repeat split; [lia| |].
    + intros E. apply (f_equal (@List.length string)) in E.
      rewrite length_skipn in E. cbn in E. lia.
    + intros ->. apply skipn_all.
  - exact Hdepth.
  - exact Hfront.
  - rewrite <- Hfront. split.
    + intros Heq. unfold recursion_depth in Heq.
      assert (Hne : map fst (activations 0
                      (trace (_recursive_match connection dir segs))) <> []).
      { destruct segs; [rewrite _recursive_match_nil
                       |rewrite _recursive_match_trace]; discriminate. }
      apply list_max_in in Hne. rewrite Heq in Hne.
      apply in_map_iff in Hne as ([d remaining] & Hd & Hin).
      cbn [fst] in Hd. subst d.
      pose proof (Hact _ _ Hin) as [_ Hrem].
      rewrite skipn_all in Hrem. subst remaining.
      exact (base_reached_truthy _ _ _ _ _ Hin).
    + intros H.
      pose proof (activations_reach_base connection segs dir 0 H) as Hbase.
      apply Nat.le_antisymm; [exact Hdepth|].
      unfold recursion_depth. apply list_max_ge.
      apply in_map_iff. exists (List.length segs, []). auto.
Qed.

(** ** Loops *)

Lemma upto_first_all {A : Type} (P : A -> bool) (l : list A) :
  (forall a, In a l -> P a = false) -> upto_first P l = l.
Proof.
  induction l as [|a l IH]; intros H; [reflexivity|].
  cbn [upto_first]. rewrite (H a (or_introl eq_refl)).
  f_equal. apply IH. intros b Hb. apply H. right. exact Hb.
Qed.

Lemma upto_first_app {A : Type} (P : A -> bool) (pre post : list A) (a : A) :
  (forall b, In b pre -> P b = false) -> P a = true ->
  upto_first P (pre ++ a :: post) = pre ++ [a].
Proof.
  intros Hpre Ha. induction pre as [|b pre IH]; cbn [app upto_first].
  - rewrite Ha. reflexivity.
  - rewrite (Hpre b (or_introl eq_refl)). f_equal.
    apply IH. intros b' Hb'. apply Hpre. right. exact Hb'.
Qed.

Lemma flat_map_agree {A B : Type} (f g : A -> list B) (l : list A) :
  (forall a, In a l -> f a = g a) -> flat_map f l = flat_map g l.
Proof.
  induction l as [|a l IH]; intros H; [reflexivity|].
  cbn [flat_map]. rewrite (H a (or_introl eq_refl)), IH; [reflexivity|].
  intros b Hb. apply H. right. exact Hb.
Qed.

(** A loop runs its body on the elements up to the first [break]. *)
Lemma for_trace {A : Type} (l : list A) (body : A -> M control) :
  trace (for_ l body)
  = flat_map (fun a => trace (body a))
             (upto_first (fun a => is_break (value (body a))) l).
Proof.
  induction l as [|a l IH]; [reflexivity|].
  cbn [for_ upto_first]. rewrite trace_bind.
  destruct (value (body a)); cbn [is_break flat_map].
  - rewrite IH. reflexivity.
  - rewrite trace_ret. reflexivity.
Qed.

Lemma for_ext {A : Type} (l : list A) (body body' : A -> M control) :
  (forall a, body a = body' a) -> for_ l body = for_ l body'.
Proof.
  intros H. induction l as [|a l IH]; [reflexivity|].
  cbn [for_]. rewrite H. unfold bind. destruct (fst (body' a)).
  - rewrite IH. reflexivity.
  - reflexivity.
Qed.

Lemma recurse_into_ext (f g : string -> M pyval) (dirs : list string) :
  (forall d, f d = g d) -> recurse_into f dirs = recurse_into g dirs.
Proof.
  intros H. induction dirs as [|d dirs IH]; [reflexivity|].
  cbn [recurse_into]. rewrite H. unfold bind.
  destruct (negb (truthy (fst (g d)))).
  - rewrite IH. reflexivity.
  - reflexivity.
Qed.

(** ** The lines at the level [highlight] *)

Lemma highlights_app (t1 t2 : list event) :
  highlights (t1 ++ t2) = highlights t1 ++ highlights t2.
Proof.
  induction t1 as [|e t1 IH]; [reflexivity|].
  destruct e as [? ?|[] ?|? ?|]; cbn [app highlights]; rewrite IH; reflexivity.
Qed.

Lemma highlights_flat_map {A : Type} (f : A -> list event) (l : list A) :
  highlights (flat_map f l) = flat_map (fun a => highlights (f a)) l.
Proof.
  induction l as [|a l IH]; [reflexivity|].
  cbn [flat_map]. rewrite highlights_app, IH. reflexivity.
Qed.

Lemma in_highlights (line : string) (t : list event) :
  In line (highlights t) <-> In (Log highlight line) t.
Proof.
  induction t as [|e t IH]; [reflexivity|].
  destruct e as [? ?|[] ?|? ?|]; cbn [highlights In]; rewrite IH;
    split; try (intros [H|H]; [discriminate|exact H]); auto.
  - intros [<-|H]; auto.
  - intros [H|H]; [left; congruence|right; exact H].
Qed.

(** A resolution writes nothing to the logger. *)
Lemma highlights_recursive_match (connection : Connection)
    (segs : list string) (dir : string) :
  highlights (trace (_recursive_match connection dir segs)) = [].
Proof.
  revert dir. induction segs as [|seg rest IH]; intros dir.
  - reflexivity.
  - rewrite _recursive_match_trace. cbn [highlights].
    rewrite highlights_app, highlights_flat_map. cbn [highlights].
    rewrite app_nil_r.
    induction (upto_first _ _) as [|d dirs IHd]; [reflexivity|].
    cbn [flat_map]. rewrite IH, IHd. reflexivity.
Qed.

Lemma highlights_resolve_run (connection : Connection) (pattern : string) :
  highlights (trace (resolve_run connection pattern)) = [].
Proof.
  unfold resolve_run. destruct (Py.split pattern "\\"); [reflexivity|].
  apply highlights_recursive_match.
Qed.

(** ** The detector of installed products *)

Section Installed.

Variable connection : Connection.

Lemma check_path_value (name path : string) :
  is_break (value (check_path connection name path)) = resolve connection path.
Proof.
  unfold check_path, resolve, resolve_run.
  destruct (Py.split path "\\") as [|base_path remaining_paths] eqn:E.
  - exfalso. exact (split_from_not_nil _ _ _ E).
  - rewrite value_bind.
    destruct (truthy (value (_recursive_match _ _ _))); reflexivity.
Qed.

Lemma check_path_trace (name path : string) :
  trace (check_path connection name path)
  = trace (resolve_run connection path)
    ++ (if resolve connection path
        then [Log highlight (installed_line name)] else []).
Proof.
  unfold check_path, resolve, resolve_run.
  destruct (Py.split path "\\") as [|base_path remaining_paths] eqn:E.
  - exfalso. exact (split_from_not_nil _ _ _ E).
  - rewrite trace_bind.
    destruct (truthy (value (_recursive_match _ _ _))); reflexivity.
Qed.

Lemma paths_loop_trace (name : string) (patterns : list string) :
  trace (for_ patterns (check_path connection name))
  = flat_map (fun q => trace (check_path connection name q))
             (upto_first (resolve connection) patterns).
Proof.
  rewrite for_trace. f_equal.
  induction patterns as [|q patterns IH]; [reflexivity|].
  cbn [upto_first]. rewrite check_path_value, IH. reflexivity.
Qed.

Lemma paths_loop_highlights (name : string) (patterns : list string) :
  highlights (trace (for_ patterns (check_path connection name)))
  = if existsb (resolve connection) patterns then [installed_line name] else [].
Proof.
  rewrite paths_loop_trace.
  induction patterns as [|q patterns IH]; [reflexivity|].
  cbn [upto_first existsb].
  destruct (resolve connection q) eqn:E; cbn [flat_map orb].
  - rewrite app_nil_r, check_path_trace, E, highlights_app,
      highlights_resolve_run. reflexivity.
  - rewrite highlights_app, check_path_trace, E, app_nil_r,
      highlights_resolve_run, IH. reflexivity.
Qed.

Lemma _detect_password_managers_highlights (catalog : Catalog) :
  highlights (trace (_detect_password_managers connection catalog))
  = map (fun np => installed_line (fst np))
        (filter (fun np => product_installed connection (snd np)) catalog).
Proof.
  unfold _detect_password_managers. rewrite trace_bind, trace_tell.
  cbn [app highlights]. rewrite for_trace, upto_first_all.
  2:{ intros [name product] _. rewrite value_bind. reflexivity. }
  induction catalog as [|[name product] catalog IH]; [reflexivity|].
  cbn [flat_map filter fst snd]. rewrite highlights_app, IH.
  rewrite trace_bind, trace_ret, app_nil_r, paths_loop_highlights.
  unfold product_installed.
  destruct (existsb (resolve connection) (paths product)); reflexivity.
Qed.

End Installed.

(** ** A failed listing and the sibling branches *)



(** ** Counting the lines of one product *)

Lemma eqb_prefix (prefix a b : string) :
  String.eqb (prefix ++ a) (prefix ++ b) = String.eqb a b.
Proof.
  induction prefix as [|c prefix IH]; [reflexivity|].
  cbn. rewrite Ascii.eqb_refl. exact IH.
Qed.

Lemma count_prefixed (prefix name : string) (names : list string) :
  List.length (filter (String.eqb (prefix ++ name))
                 (map (fun n => (prefix ++ n)%string) names))
  = List.length (filter (String.eqb name) names).
Proof.
  induction names as [|n names IH]; [reflexivity|].
  cbn [map filter]. rewrite eqb_prefix.
  destruct (String.eqb name n); cbn [List.length]; rewrite IH; reflexivity.
Qed.

Section Names.

Variable keep : string * Product -> bool.

Lemma count_absent_name (catalog : Catalog) (name : string) :
  ~ In name (map fst catalog) ->
  List.length (filter (String.eqb name) (map fst (filter keep catalog))) = 0.
Proof.
  induction catalog as [|[n p] catalog IH]; intros Hnot; [reflexivity|].
  cbn [map fst In] in Hnot. cbn [filter].
  assert (En : String.eqb name n = false).
  { apply String.eqb_neq. intros ->. apply Hnot. left. reflexivity. }
  destruct (keep (n, p)); cbn [map fst filter]; rewrite ?En; apply IH; tauto.
Qed.

(** The names of a [dict] are distinct: a product is counted once. *)
Lemma count_unique_name (catalog : Catalog) (name : string) (product : Product) :
  NoDup (map fst catalog) -> In (name, product) catalog ->
  List.length (filter (String.eqb name) (map fst (filter keep catalog)))
  = if keep (name, product) then 1 else 0.
Proof.
  induction catalog as [|[n p] catalog IH]; intros Hnodup Hin; [destruct Hin|].
  cbn [map fst] in Hnodup. apply NoDup_cons_iff in Hnodup as [Hnot Hnodup].
  cbn [filter]. destruct Hin as [E|Hin].
  - injection E as -> ->.
    destruct (keep (name, product)); cbn [map fst filter];
      rewrite ?String.eqb_refl; cbn [List.length];
      rewrite count_absent_name by exact Hnot; reflexivity.
  - assert (En : String.eqb name n = false).
    { apply String.eqb_neq. intros ->. apply Hnot.
      apply (in_map fst) in Hin. exact Hin. }
    destruct (keep (n, p)); cbn [map fst filter]; rewrite ?En; apply IH; auto.
Qed.

End Names.

(** The names of the table of [on_login] are distinct. *)
Lemma password_managers_names_distinct : NoDup (map fst password_managers).
Proof. cbn. repeat constructor; cbn; intuition discriminate. Qed.

(** ** One report per installed product, at the first pattern that resolves *)

Lemma _detect_password_managers_trace (connection : Connection)
    (catalog : Catalog) :
  trace (_detect_password_managers connection catalog)
  = Log info ("Checking for known password manager file paths on "
              ++ host connection ++ "...")%string
    :: flat_map (fun np => trace (for_ (paths (snd np))
                                       (check_path connection (fst np))))
                catalog.
Proof.
  unfold _detect_password_managers. rewrite trace_bind, trace_tell.
  cbn [app]. f_equal. rewrite for_trace, upto_first_all.
  2:{ intros [name product] _. rewrite value_bind. reflexivity. }
  apply flat_map_ext. intros [name product].
  rewrite trace_bind, trace_ret, app_nil_r. reflexivity.
Qed.

(** The detector on a catalog in two parts: the run on the first part,
    then the run on the second without its first line. *)
Lemma _detect_password_managers_app (connection : Connection)
    (catalog1 catalog2 : Catalog) :
  trace (_detect_password_managers connection (catalog1 ++ catalog2))
  = trace (_detect_password_managers connection catalog1)
    ++ tl (trace (_detect_password_managers connection catalog2)).
Proof.
  rewrite !_detect_password_managers_trace, flat_map_app. reflexivity.
Qed.

(** What the detector does at a product one of whose patterns resolves. *)
Lemma _detect_password_managers_at_match (connection : Connection)
    (before after : Catalog) (name : string) (product : Product)
    (pre : list string) (p : string) (post : list string) :
  paths product = pre ++ p :: post ->
  (forall q, In q pre -> resolve connection q = false) ->
  resolve connection p = true ->
  trace (_detect_password_managers connection
           (before ++ (name, product) :: after))
  = trace (_detect_password_managers connection before)
    ++ flat_map (fun q => trace (resolve_run connection q)) (pre ++ [p])
    ++ [Log highlight (installed_line name)]
    ++ tl (trace (_detect_password_managers connection after)).
Proof.
  intros Hpaths Hpre Hp.
  rewrite _detect_password_managers_app. f_equal.
  rewrite (_detect_password_managers_trace connection ((name, product) :: after)).
  rewrite (_detect_password_managers_trace connection after).
  cbn [tl flat_map fst snd]. rewrite !app_assoc. f_equal.
  rewrite paths_loop_trace, Hpaths, (upto_first_app _ _ _ _ Hpre Hp).
  rewrite !flat_map_app. cbn [flat_map]. rewrite !app_nil_r.
  rewrite check_path_trace, Hp, app_assoc. f_equal. f_equal.
  apply flat_map_agree. intros q Hq.
  rewrite check_path_trace, (Hpre q Hq), app_nil_r. reflexivity.
Qed.

(** C8. With the distinct names of a [dict], a product of the catalog is
    reported as installed at most once in a run of the detector.  Its
    patterns are resolved in their order: when a pattern resolves and none
    before it does, the detector, after what it does for the products
    before this one, runs the resolutions of those patterns, in order,
    writes the one line of the product, and goes on with the products
    after it; it resolves no later pattern of the product. *)
Theorem first_resolved_pattern_ends_product
    (connection : Connection) (catalog : Catalog)
    (name : string) (product : Product) :
  NoDup (map fst catalog) ->
  In (name, product) catalog ->
  count_highlight (installed_line name)
    (trace (_detect_password_managers connection catalog)) <= 1
  /\ forall (before after : Catalog)
            (pre : list string) (p : string) (post : list string),
       catalog = before ++ (name, product) :: after ->
       paths product = pre ++ p :: post ->
       (forall q, In q pre -> resolve connection q = false) ->
       resolve connection p = true ->
       trace (_detect_password_managers connection catalog)
       = trace (_detect_password_managers connection before)
         ++ flat_map (fun q => trace (resolve_run connection q)) (pre ++ [p])
         ++ [Log highlight (installed_line name)]
         ++ tl (trace (_detect_password_managers connection after))
       /\ count_highlight (installed_line name)
            (trace (_detect_password_managers connection catalog)) = 1.
Proof.
  intros Hnodup Hin.
  assert (Hcount : count_highlight (installed_line name)
                     (trace (_detect_password_managers connection catalog))
                   = if product_installed connection product then 1 else 0).
  { unfold count_highlight. rewrite _detect_password_managers_highlights.
    rewrite <- (map_map fst installed_line). unfold installed_line.
    rewrite count_prefixed.
    exact (count_unique_name
             (fun np => product_installed connection (snd np))
             _ _ _ Hnodup Hin). }
  split.
  - rewrite Hcount. destruct (product_installed _ _); lia.
  - intros before after pre p post Hcat Hpaths Hpre Hp. split.
    + rewrite Hcat.
      exact (_detect_password_managers_at_match _ _ _ _ _ _ _ _ Hpaths Hpre Hp).
    + rewrite Hcount. unfold product_installed.
      replace (existsb (resolve connection) (paths product)) with true;
        [reflexivity|].
      symmetry. apply existsb_exists. exists p. split; [|exact Hp].
      rewrite Hpaths. apply in_elt.
Qed.

Lemma first_resolved_pattern_ends_product_witness :
  count_highlight (installed_line "1Password")
    (trace (_detect_password_managers onepassword_host password_managers)) <= 1
  /\ trace (_detect_password_managers onepassword_host password_managers)
     = trace (_detect_password_managers onepassword_host
                (firstn 2 password_managers))
       ++ flat_map (fun q => trace (resolve_run onepassword_host q))
            (["C:\\Users\\*\\AppData\\*\\1Password"]
             ++ ["C:\\Program Files\\1Password"])
       ++ [Log highlight (installed_line "1Password")]
       ++ tl (trace (_detect_password_managers onepassword_host
                       (skipn 3 password_managers)))
  /\ count_highlight (installed_line "1Password")
       (trace (_detect_password_managers onepassword_host password_managers)) = 1.
Proof.
  destruct (first_resolved_pattern_ends_product onepassword_host
              password_managers "1Password"
              {| paths := ["C:\\Users\\*\\AppData\\*\\1Password";
                           "C:\\Program Files\\1Password";
                           "C:\\Program Files (x86)\\1Password"];
                 pipes := [] |} password_managers_names_distinct)
    as [Hcount Hstop].
  - cbn. intuition.
  - split; [exact Hcount|].
    apply (Hstop (firstn 2 password_managers) (skipn 3 password_managers)
                 ["C:\\Users\\*\\AppData\\*\\1Password"]
                 "C:\\Program Files\\1Password"
                 ["C:\\Program Files (x86)\\1Password"]).
    + reflexivity.
    + reflexivity.
    + intros q [<-|[]]. vm_compute. reflexivity.
    + vm_compute. reflexivity.
Defined.

(** The third pattern of 1Password would resolve on that host as well; it
    is not tried. *)
Example later_pattern_would_resolve :
  resolve onepassword_host "C:\\Program Files (x86)\\1Password" = true.
Proof. vm_compute. reflexivity. Qed.

(** ** A pattern with the root alone *)

Lemma split_singleton (sep s root : string) :
  Py.split s sep = [root] -> root = s.
Proof.
  unfold Py.split. revert root.
  induction s as [|c s IH]; intros root; cbn [Py.split_from].
  - intros H. injection H as <-. reflexivity.
  - destruct (Py.startswith _ _).
    + intros H. injection H as _ H.
      exfalso. exact (split_from_not_nil _ _ _ H).
    + destruct (Py.split_from 0 sep s) as [|seg segs] eqn:E.
      * exfalso. exact (split_from_not_nil sep s 0 E).
      * intros H. injection H as <- ->. rewrite (IH seg eq_refl). reflexivity.
Qed.

(** C10. When splitting the pattern leaves the root alone, the root is the
    whole pattern and the base case answers at once with the one-element
    list of it, a true value, without a request.  The detector reports as
    installed every product of its catalog that has such a pattern; when
    the pattern is the first of the product, the detector writes the line
    of the product after the two ghost events of the base case and goes
    on with the next product: it tries no other pattern of the product
    and sends no listing request for it. *)
Theorem root_only_pattern_is_reported
    (connection : Connection) (catalog : Catalog)
    (name : string) (product : Product) (pattern root : string) :
  Py.split pattern "\\" = [root] ->
  In (name, product) catalog ->
  In pattern (paths product) ->
  root = pattern
  /\ resolve_run connection pattern = (PyList [root], [Enter root []; Leave])
  /\ resolve connection pattern = true
  /\ In (Log highlight (installed_line name))
        (trace (_detect_password_managers connection catalog))
  /\ forall (before after : Catalog) (more : list string),
       catalog = before ++ (name, product) :: after ->
       paths product = pattern :: more ->
       trace (_detect_password_managers connection catalog)
       = trace (_detect_password_managers connection before)
         ++ [Enter root []; Leave; Log highlight (installed_line name)]
         ++ tl (trace (_detect_password_managers connection after))
       /\ filter is_request
            (trace (_detect_password_managers connection catalog))
          = filter is_request
              (trace (_detect_password_managers connection before))
            ++ filter is_request
                 (tl (trace (_detect_password_managers connection after))).
Proof.
  intros Hsplit Hin Hpattern.
  assert (Hrun : resolve_run connection pattern
                 = (PyList [root], [Enter root []; Leave])).
  { unfold resolve_run. rewrite Hsplit. reflexivity. }
  assert (Hres : resolve connection pattern = true).
  { unfold resolve. rewrite Hrun. reflexivity. }
  split; [exact (split_singleton _ _ _ Hsplit)|].
  split; [exact Hrun|]. split; [exact Hres|]. split.
  - apply in_highlights. rewrite _detect_password_managers_highlights.
    apply in_map_iff. exists (name, product). split; [reflexivity|].
    apply filter_In. split; [exact Hin|].
    apply existsb_exists. exists pattern. auto.
  - intros before after more Hcat Hpaths.
    assert (Htrace :
      trace (_detect_password_managers connection catalog)
      = trace (_detect_password_managers connection before)
        ++ [Enter root []; Leave; Log highlight (installed_line name)]
        ++ tl (trace (_detect_password_managers connection after))).
    { rewrite Hcat.
      rewrite (_detect_password_managers_at_match connection before after
                 name product [] pattern more Hpaths); [|intros q []|exact Hres].
      cbn [app flat_map]. rewrite Hrun. reflexivity. }
    split; [exact Htrace|].
    rewrite Htrace, !filter_app. reflexivity.
Qed.

Lemma root_only_pattern_is_reported_witness :
  "C:" = "C:"
  /\ resolve_run quiet_host "C:" = (PyList ["C:"], [Enter "C:" []; Leave])
  /\ resolve quiet_host "C:" = true
  /\ In (Log highlight (installed_line "Vault"))
        (trace (_detect_password_managers quiet_host vault_catalog))
  /\ (trace (_detect_password_managers quiet_host vault_catalog)
      = trace (_detect_password_managers quiet_host (firstn 1 vault_catalog))
        ++ [Enter "C:" []; Leave; Log highlight (installed_line "Vault")]
        ++ tl (trace (_detect_password_managers quiet_host (skipn 2 vault_catalog)))
      /\ filter is_request
           (trace (_detect_password_managers quiet_host vault_catalog))
         = filter is_request
             (trace (_detect_password_managers quiet_host (firstn 1 vault_catalog)))
           ++ filter is_request
                (tl (trace (_detect_password_managers quiet_host
                              (skipn 2 vault_catalog)))))
  /\ highlights (trace (_detect_password_managers quiet_host vault_catalog))
     = ["Password manager installed: Vault"].
Proof.
  destruct (root_only_pattern_is_reported quiet_host vault_catalog "Vault"
              {| paths := ["C:"; "C:\\Windows"]; pipes := [] |} "C:" "C:")
    as (Hroot & Hrun & Hres & Hin & Hat).
  - reflexivity.
  - right. left. reflexivity.
  - left. reflexivity.
  - split; [exact Hroot|]. split; [exact Hrun|]. split; [exact Hres|].
    split; [exact Hin|]. split; [|vm_compute; reflexivity].
    apply (Hat (firstn 1 vault_catalog) (skipn 2 vault_catalog) ["C:\\Windows"]);
      reflexivity.
Defined.

(** A pattern written with single backslashes holds no separator, so it
    is its own root: the product is reported on a host that has none of
    its files. *)
Example single_backslashes_are_reported :
  highlights (trace (_detect_password_managers quiet_host
                       [("KeePass", {| paths := ["C:\Program Files\KeePass*"];
                                       pipes := [] |})]))
  = ["Password manager installed: KeePass"].
Proof. vm_compute. reflexivity. Qed.

(** ** Substrings, with and without case *)

Lemma startswith_iff (s p : string) :
  Py.startswith s p = true <-> exists t, s = (p ++ t)%string.
Proof.
  revert s. induction p as [|c p IH]; intros s; cbn [Py.startswith].
  - split; [intros _; exists s; reflexivity|reflexivity].
  - destruct s as [|d s].
    + split; [discriminate|intros [t H]; discriminate].
    + rewrite andb_true_iff, Ascii.eqb_eq, IH. split.
      * intros [-> [t ->]]. exists t. reflexivity.
      * intros [t H]. injection H as -> ->. split; [reflexivity|].
        exists t. reflexivity.
Qed.

Lemma str_in_iff (needle hay : string) :
  Py.str_in needle hay = true
  <-> exists before after, hay = (before ++ needle ++ after)%string.
Proof.
  induction hay as [|c hay IH]; cbn [Py.str_in];
    rewrite orb_true_iff, startswith_iff.
  - split.
    + intros [[t H]|H]; [|discriminate]. exists "", t. exact H.
    + intros (before & after & H). left.
      destruct before; [|discriminate]. exists after. exact H.
  - rewrite IH. split.
    + intros [[t H]|(before & after & H)].
      * exists "", t. exact H.
      * exists (String c before), after. cbn. rewrite H. reflexivity.
    + intros (before & after & H). destruct before as [|c' before].
      * left. exists after. exact H.
      * right. injection H as _ H. exists before, after. exact H.
Qed.

Lemma lower_app (s t : string) :
  Py.lower (s ++ t) = (Py.lower s ++ Py.lower t)%string.
Proof.
  induction s as [|c s IH]; [reflexivity|]. cbn. rewrite IH. reflexivity.
Qed.

Lemma lower_app_inv (s x y : string) :
  Py.lower s = (x ++ y)%string ->
  exists a b, s = (a ++ b)%string /\ Py.lower a = x /\ Py.lower b = y.
Proof.
  revert s. induction x as [|c x IH]; intros s H.
  - exists "", s. auto.
  - destruct s as [|d s]; [discriminate|].
    cbn in H. injection H as Hc H.
    destruct (IH s H) as (a & b & -> & <- & <-).
    exists (String d a), b. cbn. rewrite Hc. auto.
Qed.

Lemma same_ignoring_case_iff (s t : string) :
  same_ignoring_case s t <-> Py.lower s = Py.lower t.
Proof.
  split.
  - induction 1 as [|a b s t Hab _ IH]; [reflexivity|].
    cbn. rewrite Hab, IH. reflexivity.
  - revert t. induction s as [|a s IH]; intros [|b t] H; try discriminate.
    + constructor.
    + cbn in H. injection H as Hab H. constructor; auto.
Qed.

(** The test of the code is the case-insensitive containment of the
    specification. *)
Lemma pipe_matches_iff (pipe fl : string) :
  pipe_matches pipe fl = true <-> ci_substring pipe fl.
Proof.
  unfold pipe_matches, ci_substring. rewrite str_in_iff. split.
  - intros (x & y & H).
    apply lower_app_inv in H as (before & rest & -> & <- & H).
    apply lower_app_inv in H as (middle & after & -> & H & <-).
    exists before, middle, after. split; [reflexivity|].
    apply same_ignoring_case_iff. symmetry. exact H.
  - intros (before & middle & after & -> & H).
    apply same_ignoring_case_iff in H.
    exists (Py.lower before), (Py.lower after).
    rewrite !lower_app, H. reflexivity.
Qed.

Lemma append_inv_head (prefix a b : string) :
  (prefix ++ a)%string = (prefix ++ b)%string -> a = b.
Proof.
  induction prefix as [|c prefix IH]; [auto|].
  cbn. intros H. injection H as H. auto.
Qed.

(** ** The scanner of the pipes *)

Section Running.

Variable connection : Connection.
Variable catalog : Catalog.

Lemma pipes_loop_trace (name fl : string) (identifiers : list string) :
  trace (for_ identifiers (fun pipe =>
           if pipe_matches pipe fl then
             tell (Log highlight (running_line name)) ;;
             ret Break
           else ret Continue))
  = if existsb (fun pipe => pipe_matches pipe fl) identifiers
    then [Log highlight (running_line name)] else [].
Proof.
  induction identifiers as [|pipe identifiers IH]; [reflexivity|].
  cbn [for_ existsb]. rewrite trace_bind.
  destruct (pipe_matches pipe fl); cbn [orb]; [reflexivity|exact IH].
Qed.

Lemma _detect_running_processes_trace (fs : list SharedFile) :
  listPath (conn connection) "IPC$" "\*" = Entries fs ->
  trace (_detect_running_processes connection catalog)
  = Log info ("Detecting running processes on " ++ host connection
              ++ " by enumerating pipes...")%string
    :: Request "IPC$" "\*"
    :: flat_map (fun f =>
         flat_map (fun np : string * Product =>
           if product_runs (snd np) (get_longname f)
           then [Log highlight (running_line (fst np))] else [])
           catalog) fs.
Proof.
  intros Hfs. unfold _detect_running_processes, request. run_monad.
  rewrite Hfs. f_equal. f_equal.
  rewrite for_trace, upto_first_all.
  2:{ intros f _. rewrite value_bind. reflexivity. }
  apply flat_map_ext. intros f.
  rewrite trace_bind, trace_ret, app_nil_r, for_trace, upto_first_all.
  2:{ intros [name product] _. rewrite value_bind. reflexivity. }
  apply flat_map_ext. intros [name product].
  rewrite trace_bind, trace_ret, app_nil_r. apply pipes_loop_trace.
Qed.

Lemma _detect_running_processes_raises (msg : string) :
  listPath (conn connection) "IPC$" "\*" = Raises msg ->
  _detect_running_processes connection catalog
  = (tt, [ Log info ("Detecting running processes on " ++ host connection
                     ++ " by enumerating pipes...")%string;
           Request "IPC$" "\*";
           Log fail msg ]).
Proof.
  intros Hfs. unfold _detect_running_processes, request, bind, tell, ret.
  cbn [fst snd]. rewrite Hfs. reflexivity.
Qed.

Lemma _detect_running_processes_highlights (fs : list SharedFile) :
  listPath (conn connection) "IPC$" "\*" = Entries fs ->
  highlights (trace (_detect_running_processes connection catalog))
  = flat_map (fun f =>
      map (fun np => running_line (fst np))
          (filter (fun np => product_runs (snd np) (get_longname f)) catalog))
      fs.
Proof.
  intros Hfs. rewrite (_detect_running_processes_trace fs Hfs).
  cbn [highlights]. rewrite highlights_flat_map.
  apply flat_map_ext. intros f. rewrite highlights_flat_map.
  induction catalog as [|[name product] cat IH]; [reflexivity|].
  cbn [flat_map filter fst snd].
  destruct (product_runs product (get_longname f));
    cbn [map highlights app fst]; rewrite IH; reflexivity.
Qed.

End Running.

(** ** How often a running product is reported *)

(** The claim C3 as it is written fails: LastPass holds two pipes on
    [lastpass_host] and is reported twice. *)
Lemma lastpass_reported_twice :
  ~ reported_running_at_most_once lastpass_host password_managers.
Proof.
  intros H. specialize (H "LastPass"). vm_compute in H. lia.
Qed.

(** C3, amended. With the distinct names of a [dict], a product of the
    catalog is reported as running once for every listed name that holds
    one of its identifiers, and not more: at most once per listed name,
    however many of its identifiers that name holds, and so at most as
    many times as there are listed names. *)
Theorem running_reported_once_per_listed_name
    (connection : Connection) (catalog : Catalog)
    (name : string) (product : Product) :
  NoDup (map fst catalog) ->
  In (name, product) catalog ->
  count_highlight (running_line name)
    (trace (_detect_running_processes connection catalog))
  = List.length (filter (fun f => product_runs product (get_longname f))
                        (listed_pipes connection))
  /\ count_highlight (running_line name)
       (trace (_detect_running_processes connection catalog))
     <= List.length (listed_pipes connection).
Proof.
  intros Hnodup Hin.
  assert (Hcount :
    count_highlight (running_line name)
      (trace (_detect_running_processes connection catalog))
    = List.length (filter (fun f => product_runs product (get_longname f))
                          (listed_pipes connection))).
  { unfold count_highlight, listed_pipes.
    destruct (listPath (conn connection) "IPC$" "\*") as [fs|msg] eqn:Hfs.
    - rewrite (_detect_running_processes_highlights _ _ fs Hfs).
      clear Hfs. induction fs as [|f fs IH]; [reflexivity|].
      cbn [flat_map filter]. rewrite filter_app, length_app, IH.
      rewrite <- (map_map fst running_line). unfold running_line at 1 2.
      rewrite count_prefixed.
      rewrite (count_unique_name
                 (fun np => product_runs (snd np) (get_longname f))
                 _ _ _ Hnodup Hin).
      cbn [snd]. destruct (product_runs product (get_longname f)); reflexivity.
    - rewrite (_detect_running_processes_raises _ _ msg Hfs). reflexivity. }
  split; [exact Hcount|]. rewrite Hcount. apply filter_length_le.
Qed.

Lemma running_reported_once_per_listed_name_witness :
  count_highlight (running_line "LastPass")
    (trace (_detect_running_processes lastpass_host password_managers))
  = List.length
      (filter (fun f => product_runs
                          {| paths := ["C:\\Program Files (x86)\\LastPass";
                                       "C:\\ProgramData\\LastPass"];
                             pipes := ["LASTPASS_"] |}
                          (get_longname f))
              (listed_pipes lastpass_host))
  /\ count_highlight (running_line "LastPass")
       (trace (_detect_running_processes lastpass_host password_managers))
     <= List.length (listed_pipes lastpass_host).
Proof.
  apply (running_reported_once_per_listed_name lastpass_host password_managers).
  - exact password_managers_names_distinct.
  - left. reflexivity.
Defined.

(** ** Running means: an identifier occurs in a listed name, whatever the case *)

(** C6. A product name is reported as running exactly when the catalog
    has, under that name, an identifier that is a case-insensitive
    substring of one of the names the listing of the pipes gives.  The
    identifier [LASTPASS_] matches the name [lastpass_123]. *)
Theorem running_iff_identifier_in_listed_name
    (connection : Connection) (catalog : Catalog) (name : string) :
  (In (Log highlight (running_line name))
      (trace (_detect_running_processes connection catalog))
   <-> exists product identifier f,
         In (name, product) catalog
         /\ In identifier (pipes product)
         /\ In f (listed_pipes connection)
         /\ ci_substring identifier (get_longname f))
  /\ pipe_matches "LASTPASS_" "lastpass_123" = true
  /\ ci_substring "LASTPASS_" "lastpass_123".
Proof.
  split; [|split; [reflexivity|apply pipe_matches_iff; reflexivity]].
  unfold listed_pipes.
  destruct (listPath (conn connection) "IPC$" "\*") as [fs|msg] eqn:Hfs.
  - rewrite <- in_highlights, (_detect_running_processes_highlights _ _ fs Hfs).
    rewrite in_flat_map. split.
    + intros (f & Hf & H). apply in_map_iff in H as ([n product] & E & H).
      apply filter_In in H as [Hin Hruns]. cbn [fst snd] in *.
      apply append_inv_head in E. subst n.
      apply existsb_exists in Hruns as (identifier & Hid & Hm).
      exists product, identifier, f. repeat split; auto.
      apply pipe_matches_iff. exact Hm.
    + intros (product & identifier & f & Hin & Hid & Hf & Hci).
      exists f. split; [exact Hf|].
      apply in_map_iff. exists (name, product). split; [reflexivity|].
      apply filter_In. split; [exact Hin|].
      apply existsb_exists. exists identifier. split; [exact Hid|].
      apply pipe_matches_iff. exact Hci.
  - rewrite (_detect_running_processes_raises _ _ msg Hfs). cbn [trace snd].
    split.
    + intros [H|[H|[H|[]]]]; discriminate.
    + intros (_ & _ & f & _ & _ & [] & _).
Qed.

(** The scenario of the specification: one listed pipe of LastPass. *)
Example lastpass_is_reported_running :
  highlights (trace (_detect_running_processes
                       (session (remote [] (Entries [entry "lastpass_server_pipe"])))
                       password_managers))
  = ["Password manager RUNNING: LastPass"].
Proof. vm_compute. reflexivity. Qed.

(** ** A failure of the listing of the pipes *)

Section Frame.

Variables connection connection' : Connection.

Hypothesis same_host : host connection' = host connection.
Hypothesis same_files :
  forall path, listPath (conn connection') "C$" path
               = listPath (conn connection) "C$" path.

(** A resolution reads the share [C$] only. *)
Lemma _recursive_match_frame (segs : list string) (dir : string) :
  _recursive_match connection' dir segs = _recursive_match connection dir segs.
Proof.
  revert dir. induction segs as [|seg rest IH]; intros dir; [reflexivity|].
  cbn [_recursive_match]. unfold request, bind, tell, ret. cbn [fst snd].
  rewrite same_files. destruct (listPath _ _ _); [|reflexivity].
  rewrite (recurse_into_ext _ _ _ (fun d => IH d)). reflexivity.
Qed.

Lemma _detect_password_managers_frame (catalog : Catalog) :
  _detect_password_managers connection' catalog
  = _detect_password_managers connection catalog.
Proof.
  assert (Hpaths : forall name patterns,
            for_ patterns (check_path connection' name)
            = for_ patterns (check_path connection name)).
  { intros name patterns. apply for_ext. intros path. unfold check_path.
    destruct (Py.split path "\\"); [reflexivity|].
    rewrite _recursive_match_frame. reflexivity. }
  unfold _detect_password_managers, bind. cbn [fst snd]. rewrite same_host.
  rewrite (for_ext catalog _
             (fun '(name, product) =>
                for_ (paths product) (check_path connection name) ;;
                ret Continue)); [reflexivity|].
  intros [name product]. rewrite Hpaths. reflexivity.
Qed.

End Frame.

(** C5. When the one request that lists the pipes fails, the scanner ends
    after writing the message of the failure at the level [fail] and
    reports no product; the entry point goes on with the detection by
    paths, whose reports are all the reports of the run, and which is the
    detection by paths of any session with the same host and the same
    files, whatever the listing of its pipes gives. *)
Theorem ipc_failure_keeps_path_detection
    (connection : Connection) (msg : string) :
  listPath (conn connection) "IPC$" "\*" = Raises msg ->
  _detect_running_processes connection password_managers
  = (tt, [ Log info ("Detecting running processes on " ++ host connection
                     ++ " by enumerating pipes...")%string;
           Request "IPC$" "\*";
           Log fail msg ])
  /\ trace (on_login connection)
     = [ Log info ("Analyzing target: " ++ _get_target connection)%string;
         Log info ("Detecting running processes on " ++ host connection
                   ++ " by enumerating pipes...")%string;
         Request "IPC$" "\*";
         Log fail msg ]
       ++ trace (_detect_password_managers connection password_managers)
  /\ highlights (trace (on_login connection))
     = map (fun np => installed_line (fst np))
           (filter (fun np => product_installed connection (snd np))
                   password_managers)
  /\ forall connection',
       host connection' = host connection ->
       (forall path, listPath (conn connection') "C$" path
                     = listPath (conn connection) "C$" path) ->
       _detect_password_managers connection' password_managers
       = _detect_password_managers connection password_managers.
Proof.
  intros Hfs.
  pose proof (_detect_running_processes_raises connection password_managers
                msg Hfs) as Hrun.
  assert (Htrace : trace (on_login connection)
     = [ Log info ("Analyzing target: " ++ _get_target connection)%string;
         Log info ("Detecting running processes on " ++ host connection
                   ++ " by enumerating pipes...")%string;
         Request "IPC$" "\*";
         Log fail msg ]
       ++ trace (_detect_password_managers connection password_managers)).
  { unfold on_login. rewrite !trace_bind, trace_tell, Hrun. reflexivity. }
  split; [exact Hrun|]. split; [exact Htrace|]. split.
  - rewrite Htrace, highlights_app. cbn [highlights app].
    apply _detect_password_managers_highlights.
  - intros connection' Hhost Hfiles.
    apply _detect_password_managers_frame; assumption.
Qed.

Lemma ipc_failure_keeps_path_detection_witness :
  (_detect_running_processes no_ipc_host password_managers
   = (tt, [ Log info "Detecting running processes on 10.0.0.5 by enumerating pipes...";
            Request "IPC$" "\*";
            Log fail "STATUS_ACCESS_DENIED" ])
   /\ highlights (trace (on_login no_ipc_host))
      = map (fun np => installed_line (fst np))
            (filter (fun np => product_installed no_ipc_host (snd np))
                    password_managers)
   /\ _detect_password_managers keepass_host password_managers
      = _detect_password_managers no_ipc_host password_managers)
  /\ highlights (trace (on_login no_ipc_host))
     = ["Password manager installed: KeePass"].
Proof.
  split; [|vm_compute; reflexivity].
  destruct (ipc_failure_keeps_path_detection no_ipc_host "STATUS_ACCESS_DENIED")
    as (Hrun & _ & Hhigh & Hframe).
  - reflexivity.
  - split; [exact Hrun|]. split; [exact Hhigh|].
    apply Hframe; [reflexivity|]. intros path. reflexivity.
Defined.

(** ** The notice that nothing was detected *)

Lemma notice_is_no_running_line (name : string) :
  String.eqb "No password managers detected." (running_line name) = false.
Proof. reflexivity. Qed.

Lemma notice_is_no_installed_line (name : string) :
  String.eqb "No password managers detected." (installed_line name) = false.
Proof. reflexivity. Qed.

Lemma filter_none {A : Type} (P : A -> bool) (l : list A) :
  (forall a, In a l -> P a = false) -> filter P l = [].
Proof.
  induction l as [|a l IH]; intros H; [reflexivity|].
  cbn [filter]. rewrite (H a (or_introl eq_refl)).
  apply IH. intros b Hb. apply H. right. exact Hb.
Qed.

(** C4, what the code does. [dump_results] writes the one notice when it
    is given no result, but the entry point never calls it and writes
    the notice in no run: on the host where nothing is installed and
    nothing runs, the run writes no line at the level [highlight]. *)
Theorem on_login_never_writes_the_notice :
  (forall connection : Connection,
      count_highlight "No password managers detected."
        (trace (on_login connection)) = 0)
  /\ highlights (trace (on_login quiet_host)) = []
  /\ dump_results [] = (tt, [Log highlight "No password managers detected."]).
Proof.
  split; [|split; vm_compute; reflexivity].
  intros connection. unfold count_highlight, on_login.
  rewrite !trace_bind, trace_tell, !highlights_app.
  cbn [highlights app]. rewrite filter_app, length_app.
  rewrite _detect_password_managers_highlights.
  rewrite (filter_none _ (map _ _)).
  2:{ intros line H. apply in_map_iff in H as (np & <- & _).
      apply notice_is_no_installed_line. }
  rewrite Nat.add_0_r.
  destruct (listPath (conn connection) "IPC$" "\*") as [fs|msg] eqn:Hfs.
  - rewrite (_detect_running_processes_highlights _ _ fs Hfs).
    rewrite filter_none; [reflexivity|].
    intros line H. apply in_flat_map in H as (f & _ & H).
    apply in_map_iff in H as (np & <- & _).
    apply notice_is_no_running_line.
  - rewrite (_detect_running_processes_raises _ _ msg Hfs). reflexivity.
Qed.

(** ** Segments without wildcards *)

Lemma list_ascii_of_string_app (s t : string) :
  list_ascii_of_string (s ++ t)
  = list_ascii_of_string s ++ list_ascii_of_string t.
Proof.
  induction s as [|c s IH]; [reflexivity|]. cbn. rewrite IH. reflexivity.
Qed.

Lemma list_ascii_of_string_inj (s t : string) :
  list_ascii_of_string s = list_ascii_of_string t -> s = t.
Proof.
  intros H. apply (f_equal string_of_list_ascii) in H.
  rewrite !string_of_list_ascii_of_string in H. exact H.
Qed.

Lemma tokens_literal (p : string) (rest : list ascii) :
  literal p = true ->
  Fnmatch.tokens_from 0 (list_ascii_of_string p ++ rest)
  = map Fnmatch.Lit (list_ascii_of_string p) ++ Fnmatch.tokens_from 0 rest.
Proof.
  induction p as [|c p IH]; [reflexivity|].
  cbn [literal list_ascii_of_string app map Fnmatch.tokens_from].
  unfold is_meta. intros H. apply andb_true_iff in H as [Hc Hp].
  destruct (Ascii.eqb c "*"); [discriminate|].
  destruct (Ascii.eqb c "?"); [discriminate|].
  destruct (Ascii.eqb c "["); [discriminate|].
  rewrite (IH Hp). reflexivity.
Qed.

Lemma matches_literals (l : list ascii) (toks : list Fnmatch.token) (s : list ascii) :
  Fnmatch.matches (map Fnmatch.Lit l ++ toks) s = true
  <-> exists t, s = l ++ t /\ Fnmatch.matches toks t = true.
Proof.
  revert s. induction l as [|c l IH]; intros s.
  - cbn [map app]. split; [intros H; exists s; auto|intros (t & -> & H); exact H].
  - cbn [map app Fnmatch.matches]. destruct s as [|ch s].
    + split; [discriminate|intros (t & H & _); discriminate].
    + rewrite andb_true_iff, Ascii.eqb_eq, IH. split.
      * intros [-> (t & -> & H)]. exists t. auto.
      * intros (t & E & H). injection E as -> ->. split; [reflexivity|].
        exists t. auto.
Qed.

Lemma matches_star (s : list ascii) : Fnmatch.matches [Fnmatch.Star] s = true.
Proof.
  induction s as [|c s IH]; [reflexivity|].
  cbn [Fnmatch.matches] in *. cbn [orb]. exact IH.
Qed.

Lemma matches_end (s : list ascii) : Fnmatch.matches [] s = true <-> s = [].
Proof. destruct s; cbn; split; congruence. Qed.

(** A segment without wildcards matches itself and nothing else. *)
Lemma fnmatch_literal (name p : string) :
  literal p = true -> Fnmatch.fnmatch name p = String.eqb name p.
Proof.
  intros Hp. apply Bool.eq_true_iff_eq. unfold Fnmatch.fnmatch.
  rewrite <- (app_nil_r (list_ascii_of_string p)), (tokens_literal _ _ Hp).
  cbn [Fnmatch.tokens_from]. rewrite matches_literals, String.eqb_eq. split.
  - intros (t & E & Ht). apply matches_end in Ht. subst t.
    rewrite app_nil_r in E. apply list_ascii_of_string_inj. exact E.
  - intros ->. exists []. rewrite app_nil_r. auto.
Qed.

(** A segment without wildcards followed by a star matches the names that
    start with it. *)
Lemma fnmatch_literal_star (name p : string) :
  literal p = true ->
  Fnmatch.fnmatch name (p ++ "*") = Py.startswith name p.
Proof.
  intros Hp. apply Bool.eq_true_iff_eq. unfold Fnmatch.fnmatch.
  rewrite list_ascii_of_string_app, (tokens_literal _ _ Hp).
  change (Fnmatch.tokens_from 0 (list_ascii_of_string "*")) with [Fnmatch.Star].
  rewrite matches_literals, startswith_iff. split.
  - intros (t & E & _). exists (string_of_list_ascii t).
    apply list_ascii_of_string_inj.
    rewrite list_ascii_of_string_app, list_ascii_of_string_of_list_ascii.
    exact E.
  - intros (t & ->). exists (list_ascii_of_string t).
    split; [apply list_ascii_of_string_app|apply matches_star].
Qed.

(** X1. What [fnmatch] does with the three kinds of segments of the table
    of [on_login]: a segment without [*], [?] and [[] matches the name
    equal to it and no other, with the case of every letter; followed by a
    star it matches exactly the names that start with it; the star alone
    matches every name. *)
Theorem fnmatch_on_table_segments (p : string) :
  literal p = true ->
  (forall name, Fnmatch.fnmatch name p = String.eqb name p)
  /\ (forall name, Fnmatch.fnmatch name (p ++ "*") = Py.startswith name p)
  /\ (forall name, Fnmatch.fnmatch name "*" = true).
Proof.
  intros Hp. split; [|split]; intros name.
  - apply fnmatch_literal. exact Hp.
  - apply fnmatch_literal_star. exact Hp.
  - apply (fnmatch_literal_star name "" eq_refl).
Qed.

Lemma fnmatch_on_table_segments_witness :
  (forall name, Fnmatch.fnmatch name "KeePass" = String.eqb name "KeePass")
  /\ (forall name, Fnmatch.fnmatch name "KeePass*" = Py.startswith name "KeePass")
  /\ (forall name, Fnmatch.fnmatch name "*" = true).
Proof.
  apply (fnmatch_on_table_segments "KeePass"). reflexivity.
Defined.

(** X2. A pattern whose segments hold no wildcard resolves exactly when
    the direct check of the literal path succeeds: every listing on the
    way succeeds and holds an entry named as the next segment, letter for
    letter. *)
Theorem literal_pattern_is_existence_check
    (connection : Connection) (dir : string) (segs : list string) :
  forallb literal segs = true ->
  truthy (value (_recursive_match connection dir segs))
  = path_exists connection dir segs.
Proof.
  revert dir. induction segs as [|seg rest IH]; intros dir Hlit; [reflexivity|].
  cbn [forallb] in Hlit. apply andb_true_iff in Hlit as [Hseg Hrest].
  rewrite _recursive_match_value. cbn [truthy path_exists]. unfold children.
  destruct (listPath _ _ _) as [contents|msg]; [|reflexivity].
  rewrite <- (IH _ Hrest). unfold matched_dirs.
  induction contents as [|item contents IHc]; [reflexivity|].
  cbn [filter existsb]. rewrite (fnmatch_literal _ _ Hseg).
  destruct (String.eqb (get_shortname item) seg) eqn:E.
  - apply String.eqb_eq in E. cbn [map existsb orb]. rewrite IHc, E.
    destruct (truthy _); [reflexivity|].
    cbn [orb]. apply andb_false_r.
  - cbn [orb]. exact IHc.
Qed.

Lemma literal_pattern_is_existence_check_witness :
  truthy (value (_recursive_match profiles_host "C:"
                   ["Users"; "bob"; "AppData"; "Local"; "Bitwarden"]))
  = path_exists profiles_host "C:"
      ["Users"; "bob"; "AppData"; "Local"; "Bitwarden"].
Proof.
  apply (literal_pattern_is_existence_check profiles_host "C:"
           ["Users"; "bob"; "AppData"; "Local"; "Bitwarden"]).
  reflexivity.
Defined.

(** ** The requests of a run *)

Lemma requests_app (t1 t2 : list event) :
  requests (t1 ++ t2) = requests t1 ++ requests t2.
Proof. apply filter_app. Qed.

Lemma in_requests (e : event) (t : list event) :
  In e (requests t) <-> exists shareName path, e = Request shareName path /\ In e t.
Proof.
  unfold requests. rewrite filter_In. split.
  - intros [Hin Hreq]. destruct e; try discriminate. eauto.
  - intros (shareName & path & -> & Hin). auto.
Qed.

Lemma breadth_first_requests_app (connection : Connection)
    (segs dirs1 dirs2 : list string) :
  breadth_first_requests connection (dirs1 ++ dirs2) segs
  = breadth_first_requests connection dirs1 segs
    + breadth_first_requests connection dirs2 segs.
Proof.
  revert dirs1 dirs2. induction segs as [|seg rest IH]; intros dirs1 dirs2;
    [reflexivity|].
  cbn [breadth_first_requests]. unfold expand.
  rewrite flat_map_app, IH, length_app. lia.
Qed.

Lemma breadth_first_requests_nil (connection : Connection) (segs : list string) :
  breadth_first_requests connection [] segs = 0.
Proof. induction segs as [|seg rest IH]; [reflexivity|exact IH]. Qed.

Lemma breadth_first_requests_single (connection : Connection)
    (dir seg : string) (rest : list string) :
  breadth_first_requests connection [dir] (seg :: rest)
  = 1 + breadth_first_requests connection (children connection seg dir) rest.
Proof.
  cbn [breadth_first_requests List.length]. unfold expand.
  cbn [flat_map]. rewrite app_nil_r. reflexivity.
Qed.

(** X3. The depth-first search never sends more listing requests than the
    level-by-level expansion of the frontier would, one request for every
    directory of every frontier but the last; when the pattern does not
    resolve it sends exactly that many, every branch having been tried. *)
Theorem depth_first_requests_bounded
    (connection : Connection) (dir : string) (segs : list string) :
  if truthy (value (_recursive_match connection dir segs))
  then List.length (requests (trace (_recursive_match connection dir segs)))
       <= breadth_first_requests connection [dir] segs
  else List.length (requests (trace (_recursive_match connection dir segs)))
       = breadth_first_requests connection [dir] segs.
Proof.
  assert (H : forall segs dir,
    List.length (requests (trace (_recursive_match connection dir segs)))
    <= breadth_first_requests connection [dir] segs
    /\ (truthy (value (_recursive_match connection dir segs)) = false ->
        List.length (requests (trace (_recursive_match connection dir segs)))
        = breadth_first_requests connection [dir] segs)).
  { clear dir segs. induction segs as [|seg rest IH]; intros dir.
    - rewrite _recursive_match_nil. cbn. auto.
    - rewrite _recursive_match_trace, _recursive_match_value,
        breadth_first_requests_single.
      cbn [truthy]. set (P := fun d => truthy (value (_recursive_match connection d rest))).
      set (tr := fun d => trace (_recursive_match connection d rest)).
      change (Enter dir (seg :: rest) :: Request "C$" (listing_path dir)
              :: flat_map tr (upto_first P (children connection seg dir)) ++ [Leave])
        with ([Enter dir (seg :: rest); Request "C$" (listing_path dir)]
              ++ flat_map tr (upto_first P (children connection seg dir)) ++ [Leave]).
      rewrite !requests_app. cbn [requests filter is_request].
      rewrite app_nil_r. cbn [app List.length].
      assert (Hdirs : forall dirs,
        List.length (requests (flat_map tr (upto_first P dirs)))
        <= breadth_first_requests connection dirs rest
        /\ (existsb P dirs = false ->
            List.length (requests (flat_map tr (upto_first P dirs)))
            = breadth_first_requests connection dirs rest)).
      { induction dirs as [|d dirs [Hle' Heq']].
        - rewrite breadth_first_requests_nil. cbn. auto.
        - rewrite (breadth_first_requests_app connection rest [d] dirs
                     : breadth_first_requests connection (d :: dirs) rest = _).
          destruct (IH d) as [Hle Heq]. fold (P d) in Heq. fold (tr d) in Hle, Heq.
          cbn [upto_first existsb]. destruct (P d) eqn:EP; cbn [orb flat_map].
          + rewrite app_nil_r. split; [clear Heq Heq'; lia|discriminate].
          + rewrite requests_app, length_app. split; [clear Heq Heq'; lia|].
            intros Hnone. specialize (Heq eq_refl). specialize (Heq' Hnone). lia. }
      destruct (Hdirs (children connection seg dir)) as [Hle Heq].
      split; [lia|]. intros Hnone. specialize (Heq Hnone). lia. }
  destruct (H segs dir) as [Hle Heq].
  destruct (truthy _); [exact Hle|apply Heq; reflexivity].
Qed.

Lemma in_trace_for {A : Type} (l : list A) (body : A -> M control) (e : event) :
  In e (trace (for_ l body)) -> exists a, In a l /\ In e (trace (body a)).
Proof.
  rewrite for_trace. intros H. apply in_flat_map in H as (a & Ha & H).
  apply upto_first_incl in Ha. eauto.
Qed.

Lemma requests_password_managers (connection : Connection) (catalog : Catalog)
    (shareName path : string) :
  In (Request shareName path)
     (trace (_detect_password_managers connection catalog)) ->
  shareName = "C$" /\ exists d, path = listing_path d.
Proof.
  unfold _detect_password_managers. rewrite trace_bind, trace_tell.
  intros [H|H]; [discriminate|].
  apply in_trace_for in H as ([name product] & _ & H).
  rewrite trace_bind, trace_ret, app_nil_r in H.
  apply in_trace_for in H as (pattern & _ & H).
  rewrite check_path_trace in H. apply in_app_iff in H as [H|H].
  - unfold resolve_run in H. destruct (Py.split pattern "\\"); [destruct H|].
    apply requests_within_frontier in H as (_ & d & _ & _ & -> & ->). eauto.
  - destruct (resolve connection pattern); [|destruct H].
    destruct H as [H|[]]. discriminate.
Qed.

Lemma requests_running_processes (connection : Connection) (catalog : Catalog) :
  requests (trace (_detect_running_processes connection catalog))
  = [Request "IPC$" "\*"].
Proof.
  destruct (listPath (conn connection) "IPC$" "\*") as [fs|msg] eqn:Hfs.
  - rewrite (_detect_running_processes_trace _ _ fs Hfs).
    cbn [requests filter is_request]. f_equal. apply filter_none.
    intros e H. apply in_flat_map in H as (f & _ & H).
    apply in_flat_map in H as (np & _ & H).
    destruct (product_runs _ _); [|destruct H].
    destruct H as [<-|[]]. reflexivity.
  - rewrite (_detect_running_processes_raises _ _ msg Hfs). reflexivity.
Qed.

(** X4. Whatever the host answers, a run of the entry point sends first
    the one request that lists the pipes, on the share [IPC$], and after
    it only listings of directories of the share [C$], each for the path
    [_recursive_match] derives from a directory.  It sends nothing else. *)
Theorem on_login_only_lists (connection : Connection) :
  exists rest,
    requests (trace (on_login connection)) = Request "IPC$" "\*" :: rest
    /\ Forall (fun e => exists d, e = Request "C$" (listing_path d)) rest.
Proof.
  exists (requests (trace (_detect_password_managers connection password_managers))).
  split.
  - unfold on_login. rewrite !trace_bind, trace_tell, !requests_app.
    rewrite requests_running_processes. reflexivity.
  - apply Forall_forall. intros e H.
    apply in_requests in H as (shareName & path & -> & H).
    apply requests_password_managers in H as (-> & d & ->). eauto.
Qed.

(** ** The paths of a resolution go down, one component per segment *)

Lemma append_assoc (a b c : string) :
  ((a ++ b) ++ c)%string = (a ++ b ++ c)%string.
Proof. induction a as [|x a IH]; [reflexivity|]. cbn. rewrite IH. reflexivity. Qed.

Lemma append_nil_r (a : string) : (a ++ "")%string = a.
Proof. induction a as [|x a IH]; [reflexivity|]. cbn. rewrite IH. reflexivity. Qed.

Lemma drop_suffix (k : nat) (s : string) :
  exists t, s = (t ++ Py.drop k s)%string.
Proof.
  revert k. induction s as [|c s IH]; intros [|k]; try (exists ""; reflexivity).
  destruct (IH k) as [t Ht]. exists (String c t). cbn. rewrite <- Ht. reflexivity.
Qed.

Lemma endswith_inv (s p : string) :
  Py.endswith s p = true -> exists t, s = (t ++ p)%string.
Proof.
  unfold Py.endswith. intros H. apply andb_true_iff in H as [_ H].
  apply String.eqb_eq in H.
  destruct (drop_suffix (String.length s - String.length p) s) as [t Ht].
  exists t. rewrite <- H. exact Ht.
Qed.

Lemma append_last (u n t : string) :
  (u ++ n)%string = (t ++ "/")%string -> n <> "" ->
  exists n', n = (n' ++ "/")%string.
Proof.
  revert t. induction u as [|c u IH]; intros t H Hn.
  - exists t. exact H.
  - destruct t as [|c' t].
    + cbn in H. injection H as _ H. destruct u; [|discriminate].
      cbn in H. congruence.
    + cbn in H. injection H as _ H. exact (IH t H Hn).
Qed.

Lemma startswith_str_in (name p : string) :
  Py.startswith name p = true -> Py.str_in p name = true.
Proof. intros H. destruct name; cbn [Py.str_in]; rewrite H; reflexivity. Qed.

Lemma plain_inv (name : string) :
  plain name = true ->
  name <> "" /\ Py.str_in "/" name = false /\ name <> "." /\ name <> "..".
Proof.
  unfold plain. rewrite !andb_true_iff, !negb_true_iff, !String.eqb_neq. tauto.
Qed.

(** With a directory that is not empty and does not end with the
    separator, [os.path.join] appends the separator and the name. *)
Lemma join_plain (dir name : string) :
  String.eqb dir "" = false -> Py.endswith dir "/" = false ->
  plain name = true ->
  Py.join dir name = (dir ++ "/" ++ name)%string.
Proof.
  intros Hdir Hend Hname. apply plain_inv in Hname as (_ & Hsep & _).
  unfold Py.join. rewrite Hdir, Hend.
  destruct (Py.startswith name "/") eqn:E; [|reflexivity].
  apply startswith_str_in in E. congruence.
Qed.

Lemma joined_keeps_shape (dir name : string) :
  plain name = true ->
  String.eqb (dir ++ "/" ++ name) "" = false
  /\ Py.endswith (dir ++ "/" ++ name) "/" = false.
Proof.
  intros Hname. apply plain_inv in Hname as (Hne & Hsep & _). split.
  - destruct dir; reflexivity.
  - destruct (Py.endswith (dir ++ "/" ++ name) "/") eqn:E; [|reflexivity].
    exfalso. apply endswith_inv in E as [t Ht].
    rewrite <- append_assoc in Ht.
    destruct (append_last _ _ _ Ht Hne) as [n' Hn'].
    assert (Hin : Py.str_in "/" name = true).
    { apply str_in_iff. exists n', "". exact Hn'. }
    congruence.
Qed.

Lemma resolves_to_below (connection : Connection) (dir : string)
    (segs : list string) (p : string) :
  names_are_plain connection ->
  resolves_to connection dir segs p ->
  String.eqb dir "" = false -> Py.endswith dir "/" = false ->
  exists names,
    List.length names = List.length segs
    /\ Forall (fun name => plain name = true) names
    /\ Forall2 (fun name seg => Fnmatch.fnmatch name seg = true) names segs
    /\ p = below dir names.
Proof.
  intros Hplain H.
  induction H as [dir|dir seg rest contents item p Hl Hin Hm _ IH];
    intros Hdir Hend.
  - exists []. repeat split; constructor.
  - pose proof (Hplain _ _ _ Hl Hin) as Hname.
    rewrite (join_plain _ _ Hdir Hend Hname) in IH.
    destruct (joined_keeps_shape dir _ Hname) as [Hdir' Hend'].
    destruct (IH Hdir' Hend') as (names & Hlen & Hall & Hmatch & ->).
    exists (get_shortname item :: names). cbn [List.length below fold_left].
    repeat split; auto.
Qed.

(** X5. When every listed name is one component of a path (not empty,
    without [/], and neither [.] nor [..]) and the resolution starts from a
    path that is not empty and does not end with [/], every path of the
    frontier is the starting path followed by as many components as there
    are segments, each a listed name that its segment matches, and every
    request lists the starting path followed by fewer such components:
    the search goes down one level per segment and never up. *)
Theorem frontier_paths_go_down
    (connection : Connection) (dir : string) (segs : list string) :
  names_are_plain connection ->
  String.eqb dir "" = false ->
  Py.endswith dir "/" = false ->
  (forall p,
      In p (frontier connection [dir] segs) ->
      exists names,
        List.length names = List.length segs
        /\ Forall (fun name => plain name = true) names
        /\ Forall2 (fun name seg => Fnmatch.fnmatch name seg = true) names segs
        /\ p = below dir names)
  /\ forall shareName path,
       In (Request shareName path)
          (trace (_recursive_match connection dir segs)) ->
       exists names,
         List.length names < List.length segs
         /\ Forall (fun name => plain name = true) names
         /\ path = listing_path (below dir names).
Proof.
  intros Hplain Hdir Hend. split.
  - intros p H. apply in_frontier_resolves in H.
    exact (resolves_to_below _ _ _ _ Hplain H Hdir Hend).
  - intros shareName path H.
    apply requests_within_frontier in H as (i & d & Hi & Hd & _ & ->).
    apply in_frontier_resolves in Hd.
    destruct (resolves_to_below _ _ _ _ Hplain Hd Hdir Hend)
      as (names & Hlen & Hall & _ & ->).
    exists names. rewrite Hlen, length_firstn. repeat split; auto. lia.
Qed.

Lemma listPath_remote (files : list (string * listing)) (ipc : listing)
    (path : string) :
  listPath (conn (session (remote files ipc))) "C$" path
  = match dict_get path files with
    | Some l => l
    | None => Raises "STATUS_OBJECT_NAME_NOT_FOUND"
    end.
Proof. reflexivity. Qed.

Lemma keepass_names_are_plain : names_are_plain keepass_host.
Proof.
  intros path contents item H Hin. unfold keepass_host in H.
  rewrite listPath_remote in H. unfold keepass_files in H. cbn [dict_get] in H.
  destruct (String.eqb "/*" path).
  - injection H as <-. destruct Hin as [<-|[]]. reflexivity.
  - destruct (String.eqb "/Program Files/*" path); [|discriminate].
    injection H as <-. destruct Hin as [<-|[<-|[]]]; reflexivity.
Qed.

Lemma frontier_paths_go_down_witness :
  (forall p,
      In p (frontier keepass_host ["C:"] ["Program Files"; "KeePass*"]) ->
      exists names,
        List.length names = 2
        /\ Forall (fun name => plain name = true) names
        /\ Forall2 (fun name seg => Fnmatch.fnmatch name seg = true)
                   names ["Program Files"; "KeePass*"]
        /\ p = below "C:" names)
  /\ forall shareName path,
       In (Request shareName path)
          (trace (_recursive_match keepass_host "C:"
                    ["Program Files"; "KeePass*"])) ->
       exists names,
         List.length names < 2
         /\ Forall (fun name => plain name = true) names
         /\ path = listing_path (below "C:" names).
Proof.
  apply (frontier_paths_go_down keepass_host "C:" ["Program Files"; "KeePass*"]).
  - exact keepass_names_are_plain.
  - reflexivity.
  - reflexivity.
Defined.

(** The frontier of the witness, and a path it is made of. *)
Example frontier_of_keepass :
  frontier keepass_host ["C:"] ["Program Files"; "KeePass*"]
  = [below "C:" ["Program Files"; "KeePass2"]].
Proof. reflexivity. Qed.

(** Where a listing holds the entries [.] and [..], the star matches them
    and the search follows them: here it goes above the directory it
    started from. *)
Example dot_dot_entry_is_followed :
  _recursive_match dotted_host "C:/Users" ["*"; "Secret"]
  = (PyBool true,
     [ Enter "C:/Users" ["*"; "Secret"];
       Request "C$" "/Users/*";
       Enter "C:/Users/." ["Secret"]; Request "C$" "/Users/./*"; Leave;
       Enter "C:/Users/.." ["Secret"]; Request "C$" "/Users/../*";
       Enter "C:/Users/../Secret" []; Leave;
       Leave;
       Leave ]).
Proof. reflexivity. Qed.

(** A listed name that starts with [/] is taken by [os.path.join] as a
    path of its own: the directory above it is forgotten. *)
Example absolute_name_forgets_directory :
  matched_dirs "C:/Users" "*" [entry "/Windows"; entry "bob"]
  = ["/Windows"; "C:/Users/bob"].
Proof. reflexivity. Qed.

(** ** More files, more matches *)

Lemma resolves_to_grow (connection connection' : Connection) (dir : string)
    (segs : list string) (p : string) :
  files_grow connection connection' ->
  resolves_to connection dir segs p ->
  resolves_to connection' dir segs p.
Proof.
  intros Hgrow H.
  induction H as [dir|dir seg rest contents item p Hl Hin Hm _ IH].
  - constructor.
  - destruct (Hgrow _ _ Hl) as (contents' & Hl' & Hincl).
    econstructor; eauto.
Qed.

Lemma resolve_grow (connection connection' : Connection) (pattern : string) :
  files_grow connection connection' ->
  resolve connection pattern = true -> resolve connection' pattern = true.
Proof.
  intros Hgrow. unfold resolve, resolve_run.
  destruct (Py.split pattern "\\") as [|base_path remaining_paths];
    [discriminate|].
  rewrite !truthy_iff_resolves. intros [q H]. exists q.
  exact (resolves_to_grow _ _ _ _ _ Hgrow H).
Qed.

(** X6. Detection by paths is monotone in the files of the host: when
    every listing of the share [C$] that succeeds still succeeds with at
    least the same entries, whatever their order and however often they
    are repeated, every pattern that resolved still resolves and every
    product that was reported as installed is still reported. *)
Theorem more_files_keep_reports
    (connection connection' : Connection) (catalog : Catalog) :
  files_grow connection connection' ->
  (forall pattern,
      resolve connection pattern = true -> resolve connection' pattern = true)
  /\ forall line,
       In (Log highlight line)
          (trace (_detect_password_managers connection catalog)) ->
       In (Log highlight line)
          (trace (_detect_password_managers connection' catalog)).
Proof.
  intros Hgrow. split; [intros pattern; apply resolve_grow; exact Hgrow|].
  intros line. rewrite <- !in_highlights, !_detect_password_managers_highlights.
  rewrite !in_map_iff. intros (np & E & H). exists np. split; [exact E|].
  apply filter_In in H as [Hin Hinst]. apply filter_In. split; [exact Hin|].
  unfold product_installed in *.
  apply existsb_exists in Hinst as (pattern & Hp & Hres).
  apply existsb_exists. exists pattern. split; [exact Hp|].
  exact (resolve_grow _ _ _ Hgrow Hres).
Qed.

Lemma keepass_files_grow : files_grow keepass_host busy_host.
Proof.
  intros path contents H. unfold keepass_host in H. unfold busy_host.
  rewrite listPath_remote in *. unfold keepass_files in H.
  cbn [dict_get] in *.
  destruct (String.eqb "/*" path).
  - injection H as <-. eexists. split; [reflexivity|].
    intros item [<-|[]]. left. reflexivity.
  - destruct (String.eqb "/Program Files/*" path); [|discriminate].
    injection H as <-. eexists. split; [reflexivity|].
    intros item [<-|[<-|[]]]; cbn; auto.
Qed.

Lemma more_files_keep_reports_witness :
  (forall pattern,
      resolve keepass_host pattern = true -> resolve busy_host pattern = true)
  /\ forall line,
       In (Log highlight line)
          (trace (_detect_password_managers keepass_host password_managers)) ->
       In (Log highlight line)
          (trace (_detect_password_managers busy_host password_managers)).
Proof.
  apply (more_files_keep_reports keepass_host busy_host password_managers).
  exact keepass_files_grow.
Defined.

(** ** The report of [dump_results] *)

Lemma for_tell {A : Type} (f : A -> string) (l : list A) :
  trace (for_ l (fun a => tell (Log highlight (f a)) ;; ret Continue))
  = map (fun a => Log highlight (f a)) l.
Proof.
  induction l as [|a l IH]; [reflexivity|].
  cbn [for_ map]. rewrite trace_bind, value_bind, trace_bind, trace_tell.
  cbn [value ret fst app]. rewrite IH. reflexivity.
Qed.

Lemma dump_results_lines (results : list (string * list (string * list string))) :
  trace (for_ results (fun '(manager, data) =>
           let message := ("Password manager detected: " ++ manager)%string in
           let message :=
             if has_items "paths" data then (message ++ " (Paths detected)")%string
             else message in
           let message :=
             if has_items "pipes" data then (message ++ " - RUNNING!")%string
             else message in
           tell (Log highlight message) ;;
           ret Continue))
  = map (fun md => Log highlight (result_line (fst md) (snd md))) results.
Proof.
  rewrite (for_ext results _
             (fun md => tell (Log highlight (result_line (fst md) (snd md))) ;;
                        ret Continue)); [apply for_tell|].
  intros [manager data]. cbn [fst snd]. unfold result_line.
  destruct (has_items "paths" data), (has_items "pipes" data);
    cbv zeta; rewrite ?append_assoc, ?append_nil_r; reflexivity.
Qed.

(** X7. [dump_results] writes the notice that nothing was detected when
    it is given no result, and only then; given results, it writes one
    line per manager, in their order: the name of the manager, followed by
    [(Paths detected)] when its data has a non-empty list under [paths]
    and by [- RUNNING!] when it has a non-empty list under [pipes], a
    missing key counting as an empty list. *)
Theorem dump_results_one_line_per_manager
    (results : list (string * list (string * list string))) :
  trace (dump_results results)
  = match results with
    | [] => [Log highlight "No password managers detected."]
    | _ :: _ =>
        map (fun md => Log highlight (result_line (fst md) (snd md))) results
    end
  /\ count_highlight "No password managers detected." (trace (dump_results results))
     = match results with [] => 1 | _ :: _ => 0 end
  /\ List.length (trace (dump_results results)) = Nat.max 1 (List.length results).
Proof.
  destruct results as [|r results]; [repeat split; reflexivity|].
  assert (Htrace : trace (dump_results (r :: results))
                   = map (fun md => Log highlight (result_line (fst md) (snd md)))
                         (r :: results)).
  { unfold dump_results. apply dump_results_lines. }
  split; [exact Htrace|]. rewrite Htrace. split.
  - unfold count_highlight. rewrite filter_none; [reflexivity|].
    intros line H. apply in_highlights, in_map_iff in H as (md & E & _).
    injection E as <-. reflexivity.
  - rewrite length_map. cbn [List.length]. lia.
Qed.

(** A key that is missing and a key with an empty list give the same
    line. *)
Example dump_results_missing_key :
  trace (dump_results [("KeePass", [("paths", ["C:/Program Files/KeePass2"])]);
                       ("LastPass", [("paths", []); ("pipes", ["lastpass_1"])]);
                       ("EnPass", [])])
  = [ Log highlight "Password manager detected: KeePass (Paths detected)";
      Log highlight "Password manager detected: LastPass - RUNNING!";
      Log highlight "Password manager detected: EnPass" ].
Proof. reflexivity. Qed.

(** ** What a run reads of its session *)

Lemma _detect_running_processes_frame (connection connection' : Connection)
    (catalog : Catalog) :
  host connection' = host connection ->
  listPath (conn connection') "IPC$" "\*" = listPath (conn connection) "IPC$" "\*" ->
  _detect_running_processes connection' catalog
  = _detect_running_processes connection catalog.
Proof.
  intros Hhost Hipc. unfold _detect_running_processes, request, bind, tell, ret.
  cbn [fst snd]. rewrite Hhost, Hipc. reflexivity.
Qed.

(** X8. A run reads of its session the host, the listings of the share
    [C$] and the listing of the pipes: two sessions that agree on these
    give the same run but for its first line, which names the target,
    the host or, with Kerberos, the host name and the domain. *)
Theorem on_login_reads_host_and_listings (connection connection' : Connection) :
  host connection' = host connection ->
  (forall path, listPath (conn connection') "C$" path
                = listPath (conn connection) "C$" path) ->
  listPath (conn connection') "IPC$" "\*" = listPath (conn connection) "IPC$" "\*" ->
  trace (on_login connection')
  = Log info ("Analyzing target: "
              ++ (if kerberos connection'
                  then hostname connection' ++ "." ++ domain connection'
                  else host connection'))%string
    :: tl (trace (on_login connection)).
Proof.
  intros Hhost Hfiles Hipc. unfold on_login.
  rewrite !trace_bind, !trace_tell. cbn [app tl].
  rewrite (_detect_running_processes_frame _ _ _ Hhost Hipc).
  rewrite (_detect_password_managers_frame _ _ Hhost Hfiles).
  unfold _get_target. destruct (kerberos connection'); reflexivity.
Qed.

Lemma on_login_reads_host_and_listings_witness :
  trace (on_login kerberos_host)
  = Log info "Analyzing target: WS01.corp.local"
    :: tl (trace (on_login keepass_host)).
Proof.
  apply (on_login_reads_host_and_listings keepass_host kerberos_host).
  - reflexivity.
  - intros path. reflexivity.
  - reflexivity.
Defined.

(** ** Installed means: a pattern matches, and it is said once *)

Lemma resolve_iff (connection : Connection) (pattern : string) :
  resolve connection pattern = true
  <-> exists p, pattern_matches connection pattern p.
Proof.
  unfold resolve, resolve_run, pattern_matches.
  destruct (Py.split pattern "\\") as [|base_path remaining_paths] eqn:E.
  - exfalso. exact (split_from_not_nil _ _ _ E).
  - apply truthy_iff_resolves.
Qed.

(** X9. With the distinct names of a [dict], a product of the catalog is
    reported as installed exactly once when one of its patterns matches an
    existing path, and not at all otherwise; in particular a product
    without patterns is never reported. *)
Theorem installed_once_iff_pattern_matches
    (connection : Connection) (catalog : Catalog)
    (name : string) (product : Product) :
  NoDup (map fst catalog) ->
  In (name, product) catalog ->
  count_highlight (installed_line name)
    (trace (_detect_password_managers connection catalog))
  = (if product_installed connection product then 1 else 0)
  /\ (product_installed connection product = true
      <-> exists pattern p,
            In pattern (paths product)
            /\ pattern_matches connection pattern p).
Proof.
  intros Hnodup Hin. split.
  - unfold count_highlight. rewrite _detect_password_managers_highlights.
    rewrite <- (map_map fst installed_line). unfold installed_line.
    rewrite count_prefixed.
    exact (count_unique_name
             (fun np => product_installed connection (snd np))
             _ _ _ Hnodup Hin).
  - unfold product_installed. rewrite existsb_exists. split.
    + intros (pattern & Hp & Hres). apply resolve_iff in Hres as [p Hm]. eauto.
    + intros (pattern & p & Hp & Hm). exists pattern. split; [exact Hp|].
      apply resolve_iff. eauto.
Qed.

Lemma installed_once_iff_pattern_matches_witness :
  count_highlight (installed_line "KeePass")
    (trace (_detect_password_managers busy_host password_managers))
  = (if product_installed busy_host
          {| paths := ["C:\\Program Files\\KeePass*";
                       "C:\\Program Files (x86)\\KeePass*"];
             pipes := [] |}
     then 1 else 0)
  /\ (product_installed busy_host
        {| paths := ["C:\\Program Files\\KeePass*";
                     "C:\\Program Files (x86)\\KeePass*"];
           pipes := [] |} = true
      <-> exists pattern p,
            In pattern ["C:\\Program Files\\KeePass*";
                        "C:\\Program Files (x86)\\KeePass*"]
            /\ pattern_matches busy_host pattern p).
Proof.
  apply (installed_once_iff_pattern_matches busy_host password_managers "KeePass"
           {| paths := ["C:\\Program Files\\KeePass*";
                        "C:\\Program Files (x86)\\KeePass*"];
              pipes := [] |}).
  - exact password_managers_names_distinct.
  - cbn. intuition.
Defined.

(** ** The test on the names of the pipes *)

Lemma lower_upper_char (c : ascii) :
  Py.lower_char (ascii_upper_char c) = Py.lower_char c.
Proof.
  destruct c as [[] [] [] [] [] [] [] []]; vm_compute; reflexivity.
Qed.

Lemma lower_upper (s : string) : Py.lower (ascii_upper s) = Py.lower s.
Proof.
  induction s as [|c s IH]; [reflexivity|].
  cbn [ascii_upper Py.lower]. rewrite lower_upper_char, IH. reflexivity.
Qed.

Lemma pipe_matches_upper (pipe fl : string) :
  pipe_matches (ascii_upper pipe) fl = pipe_matches pipe fl
  /\ pipe_matches pipe (ascii_upper fl) = pipe_matches pipe fl.
Proof. unfold pipe_matches. rewrite !lower_upper. auto. Qed.

Lemma product_runs_upper (np : string * Product) (fl : string) :
  product_runs (snd (upper_identifiers np)) fl = product_runs (snd np) fl
  /\ product_runs (snd np) (ascii_upper fl) = product_runs (snd np) fl.
Proof.
  unfold product_runs, upper_identifiers. cbn [snd pipes]. split.
  - induction (pipes (snd np)) as [|pipe l IH]; [reflexivity|].
    cbn [map existsb]. rewrite IH, (proj1 (pipe_matches_upper pipe fl)).
    reflexivity.
  - induction (pipes (snd np)) as [|pipe l IH]; [reflexivity|].
    cbn [existsb]. rewrite IH, (proj2 (pipe_matches_upper pipe fl)).
    reflexivity.
Qed.

Lemma flat_map_map {A B C : Type} (f : B -> list C) (g : A -> B) (l : list A) :
  flat_map f (map g l) = flat_map (fun a => f (g a)) l.
Proof.
  induction l as [|a l IH]; [reflexivity|]. cbn. rewrite IH. reflexivity.
Qed.

Lemma unit_run_eq (m m' : M unit) : trace m = trace m' -> m = m'.
Proof. destruct m as [[] t], m' as [[] t']. cbn. intros ->. reflexivity. Qed.

(** X10. The scanner does not read the case of the letters a-z and A-Z:
    its run is the same when the identifiers of the catalog are written
    in upper case, and the same on a host that lists the same pipes with
    their names in upper case. *)
Theorem scanner_ignores_case_of_letters
    (connection connection' : Connection) (catalog : Catalog) :
  host connection' = host connection ->
  listPath (conn connection') "IPC$" "\*"
  = match listPath (conn connection) "IPC$" "\*" with
    | Entries fs => Entries (map upper_longname fs)
    | Raises msg => Raises msg
    end ->
  _detect_running_processes connection (map upper_identifiers catalog)
  = _detect_running_processes connection catalog
  /\ _detect_running_processes connection' catalog
     = _detect_running_processes connection catalog.
Proof.
  intros Hhost Hipc.
  destruct (listPath (conn connection) "IPC$" "\*") as [fs|msg] eqn:Hfs.
  - split; apply unit_run_eq.
    + rewrite !(_detect_running_processes_trace _ _ fs Hfs).
      f_equal. f_equal. apply flat_map_ext. intros f.
      rewrite flat_map_map. apply flat_map_ext. intros np.
      rewrite (proj1 (product_runs_upper np (get_longname f))). reflexivity.
    + rewrite (_detect_running_processes_trace _ _ fs Hfs).
      rewrite (_detect_running_processes_trace _ _ _ Hipc), Hhost.
      f_equal. f_equal. rewrite flat_map_map.
      apply flat_map_ext. intros f. apply flat_map_ext. intros np.
      cbn [upper_longname get_longname].
      rewrite (proj2 (product_runs_upper np (get_longname f))). reflexivity.
  - split.
    + rewrite !(_detect_running_processes_raises _ _ msg Hfs). reflexivity.
    + rewrite (_detect_running_processes_raises _ _ msg Hfs).
      rewrite (_detect_running_processes_raises _ _ msg Hipc), Hhost.
      reflexivity.
Qed.

Lemma scanner_ignores_case_of_letters_witness :
  (_detect_running_processes lastpass_host (map upper_identifiers password_managers)
   = _detect_running_processes lastpass_host password_managers
   /\ _detect_running_processes shouting_host password_managers
      = _detect_running_processes lastpass_host password_managers)
  /\ highlights (trace (_detect_running_processes shouting_host password_managers))
     = ["Password manager RUNNING: LastPass"; "Password manager RUNNING: LastPass"].
Proof.
  split; [|vm_compute; reflexivity].
  apply (scanner_ignores_case_of_letters lastpass_host shouting_host
           password_managers).
  - reflexivity.
  - reflexivity.
Defined.

(** ** Splitting a pattern *)

Lemma length_append (a b : string) :
  String.length (a ++ b) = String.length a + String.length b.
Proof. induction a as [|x a IH]; [reflexivity|]. cbn. rewrite IH. reflexivity. Qed.

Lemma drop_append (a b : string) : Py.drop (String.length a) (a ++ b) = b.
Proof. induction a as [|x a IH]; [destruct b; reflexivity|exact IH]. Qed.

Lemma split_from_drop (sep : string) (k : nat) (s : string) :
  Py.split_from k sep s = Py.split_from 0 sep (Py.drop k s).
Proof.
  revert k. induction s as [|c s IH]; intros [|k]; try reflexivity.
  cbn [Py.split_from Py.drop]. apply IH.
Qed.

Lemma str_join_head (sep seg : string) (segs : list string) :
  exists w, str_join sep (seg :: segs) = (seg ++ w)%string.
Proof.
  destruct segs as [|seg' segs]; cbn [str_join].
  - exists "". symmetry. apply append_nil_r.
  - eauto.
Qed.

Lemma str_in_empty (sep : string) : sep <> "" -> Py.str_in sep "" = false.
Proof. destruct sep; [congruence|reflexivity]. Qed.

Lemma split_from_spec (sep : string) (n : nat) (s : string) :
  sep <> "" ->
  String.length s <= n ->
  str_join sep (Py.split_from 0 sep s) = s
  /\ Forall (fun seg => Py.str_in sep seg = false) (Py.split_from 0 sep s).
Proof.
  intros Hsep. revert s. induction n as [|n IH]; intros s Hlen.
  - destruct s; [|cbn in Hlen; lia].
    split; [reflexivity|]. repeat constructor. apply str_in_empty. exact Hsep.
  - destruct s as [|c s].
    { split; [reflexivity|]. repeat constructor. apply str_in_empty. exact Hsep. }
    cbn [String.length] in Hlen. cbn [Py.split_from].
    destruct (Py.startswith (String c s) sep) eqn:E.
    + apply startswith_iff in E as [t Et].
      destruct sep as [|x sep']; [congruence|].
      cbn [String.append] in Et. injection Et as -> ->.
      replace (String.length (String x sep') - 1) with (String.length sep')
        by (cbn [String.length]; lia).
      rewrite split_from_drop, drop_append.
      destruct (IH t) as [Hjoin Hall].
      { rewrite length_append in Hlen. lia. }
      split; [|constructor; [reflexivity|exact Hall]].
      cbn [str_join].
      destruct (Py.split_from 0 (String x sep') t) as [|seg segs] eqn:E2.
      { exfalso. exact (split_from_not_nil _ _ _ E2). }
      rewrite Hjoin. reflexivity.
    + destruct (IH s) as [Hjoin Hall]; [lia|].
      destruct (Py.split_from 0 sep s) as [|seg segs] eqn:E2.
      { exfalso. exact (split_from_not_nil _ _ _ E2). }
      split.
      * destruct segs; cbn [str_join] in *; rewrite <- Hjoin; reflexivity.
      * apply Forall_cons_iff in Hall as [Hseg Hall].
        constructor; [|exact Hall].
        cbn [Py.str_in]. rewrite Hseg, orb_false_r.
        destruct (Py.startswith (String c seg) sep) eqn:E3; [|reflexivity].
        apply startswith_iff in E3 as [u Eu].
        destruct (str_join_head sep seg segs) as [w Ew].
        rewrite Hjoin in Ew.
        assert (Hstart : Py.startswith (String c s) sep = true).
        { apply startswith_iff. exists (u ++ w)%string.
          rewrite <- append_assoc, <- Eu, Ew. reflexivity. }
        congruence.
Qed.

Lemma split_no_separator (sep s : string) :
  Py.str_in sep s = false -> Py.split s sep = [s].
Proof.
  unfold Py.split. induction s as [|c s IH]; [reflexivity|].
  cbn [Py.str_in Py.split_from]. intros H.
  apply orb_false_iff in H as [Hstart Hin].
  rewrite Hstart, (IH Hin). reflexivity.
Qed.

(** X11. Splitting a pattern on a non-empty separator loses nothing:
    joining the segments with the separator gives the pattern back, and
    no segment holds the separator.  The pattern is its own root, with no
    segment after it, exactly when it does not hold the separator. *)
Theorem split_join_round_trip (s sep : string) :
  sep <> "" ->
  str_join sep (Py.split s sep) = s
  /\ Forall (fun seg => Py.str_in sep seg = false) (Py.split s sep)
  /\ (Py.split s sep = [s] <-> Py.str_in sep s = false).
Proof.
  intros Hsep.
  destruct (split_from_spec sep (String.length s) s Hsep (le_n _)) as [Hjoin Hall].
  split; [exact Hjoin|]. split; [exact Hall|]. split.
  - intros E. unfold Py.split in E. rewrite E in Hall.
    apply Forall_cons_iff in Hall as [H _]. exact H.
  - apply split_no_separator.
Qed.

Lemma split_join_round_trip_witness :
  str_join "\\" (Py.split "C:\\Users\\*\\AppData\\*\\1Password" "\\")
  = "C:\\Users\\*\\AppData\\*\\1Password"
  /\ Forall (fun seg => Py.str_in "\\" seg = false)
            (Py.split "C:\\Users\\*\\AppData\\*\\1Password" "\\")
  /\ (Py.split "C:\\Users\\*\\AppData\\*\\1Password" "\\"
      = ["C:\\Users\\*\\AppData\\*\\1Password"]
      <-> Py.str_in "\\" "C:\\Users\\*\\AppData\\*\\1Password" = false).
Proof.
  apply (split_join_round_trip "C:\\Users\\*\\AppData\\*\\1Password" "\\").
  discriminate.
Defined.

(** ** The path that is listed *)

Lemma replace_from_drop (old new : string) (k : nat) (s : string) :
  Py.replace_from k old new s = Py.replace_from 0 old new (Py.drop k s).
Proof.
  revert k. induction s as [|c s IH]; intros [|k]; try reflexivity.
  cbn [Py.replace_from Py.drop]. apply IH.
Qed.

Lemma replace_absent (s old new : string) :
  old <> "" -> Py.str_in old s = false -> Py.replace s old new = s.
Proof.
  intros Hold. unfold Py.replace. destruct old as [|x old']; [congruence|].
  induction s as [|c s IH]; [reflexivity|].
  cbn [Py.str_in Py.replace_from]. intros H.
  apply orb_false_iff in H as [Hstart Hin].
  rewrite Hstart, (IH Hin). reflexivity.
Qed.

Lemma replace_prefix (s old new : string) :
  old <> "" ->
  Py.replace (old ++ s) old new = (new ++ Py.replace s old new)%string.
Proof.
  intros Hold. unfold Py.replace. destruct old as [|x old']; [congruence|].
  cbn [String.append Py.replace_from].
  assert (Hstart : Py.startswith (String x (old' ++ s)) (String x old') = true).
  { apply startswith_iff. exists s. reflexivity. }
  rewrite Hstart.
  replace (String.length (String x old') - 1) with (String.length old')
    by (cbn [String.length]; lia).
  rewrite replace_from_drop, drop_append. reflexivity.
Qed.

(** X12. The path that is listed for a directory is the path of the
    directory followed by [/*], from which the drive [C:] in front was
    dropped.  A path that holds no [C:] is sent as it is: a pattern on
    another drive is listed, under the name of its drive, on the share
    [C$]. *)
Theorem listing_path_drops_drive_c
    (connection : Connection) (rest seg : string) (more : list string) :
  Py.str_in "C:" rest = false ->
  listing_path ("C:" ++ rest) = (rest ++ "/*")%string
  /\ listing_path rest = (rest ++ "/*")%string
  /\ In (Request "C$" (rest ++ "/*"))
        (trace (_recursive_match connection rest (seg :: more))).
Proof.
  intros Hrest.
  assert (Hsame : listing_path rest = (rest ++ "/*")%string).
  { unfold listing_path. rewrite replace_absent; [reflexivity|discriminate|exact Hrest]. }
  split; [|split; [exact Hsame|]].
  - unfold listing_path. rewrite replace_prefix by discriminate.
    rewrite replace_absent; [reflexivity|discriminate|exact Hrest].
  - rewrite _recursive_match_trace, <- Hsame. right. left. reflexivity.
Qed.

Lemma listing_path_drops_drive_c_witness :
  listing_path ("C:" ++ "/Program Files") = ("/Program Files" ++ "/*")%string
  /\ listing_path "/Program Files" = ("/Program Files" ++ "/*")%string
  /\ In (Request "C$" ("/Program Files" ++ "/*"))
        (trace (_recursive_match keepass_host "/Program Files" ["KeePass*"])).
Proof.
  apply (listing_path_drops_drive_c keepass_host "/Program Files" "KeePass*" []).
  reflexivity.
Defined.

(** A pattern on the drive [D:] is listed on the share [C$]. *)
Example other_drive_is_listed_on_c :
  requests (trace (_recursive_match quiet_host "D:" ["Tools"]))
  = [Request "C$" "D:/*"].
Proof. reflexivity. Qed.

(** ** The order of the reports *)

Lemma length_flat_map_le {A B : Type} (f : A -> list B) (l : list A) (n : nat) :
  (forall a, In a l -> List.length (f a) <= n) ->
  List.length (flat_map f l) <= List.length l * n.
Proof.
  induction l as [|a l IH]; intros H; [reflexivity|].
  cbn [flat_map List.length]. rewrite length_app.
  specialize (H a (or_introl eq_refl)) as Ha.
  assert (Hl : List.length (flat_map f l) <= List.length l * n).
  { apply IH. intros b Hb. apply H. right. exact Hb. }
  cbn [Nat.mul]. lia.
Qed.

(** X13. The scanner reports pipe by pipe, in the order of the listing,
    and for one pipe product by product, in the order of the catalog,
    every product one of whose identifiers the name of the pipe holds: at
    most as many lines as there are pipes times products.  In a run of
    the entry point every report of a running product comes before every
    report of an installed one. *)
Theorem reports_follow_listing_then_catalog
    (connection : Connection) (catalog : Catalog) :
  highlights (trace (_detect_running_processes connection catalog))
  = flat_map (fun f =>
      map (fun np => running_line (fst np))
          (filter (fun np => product_runs (snd np) (get_longname f)) catalog))
      (listed_pipes connection)
  /\ List.length (highlights (trace (_detect_running_processes connection catalog)))
     <= List.length (listed_pipes connection) * List.length catalog
  /\ highlights (trace (on_login connection))
     = highlights (trace (_detect_running_processes connection password_managers))
       ++ map (fun np => installed_line (fst np))
              (filter (fun np => product_installed connection (snd np))
                      password_managers).
Proof.
  assert (Hrun : forall cat,
    highlights (trace (_detect_running_processes connection cat))
    = flat_map (fun f =>
        map (fun np => running_line (fst np))
            (filter (fun np => product_runs (snd np) (get_longname f)) cat))
        (listed_pipes connection)).
  { intros cat. unfold listed_pipes.
    destruct (listPath (conn connection) "IPC$" "\*") as [fs|msg] eqn:Hfs.
    - exact (_detect_running_processes_highlights _ _ fs Hfs).
    - rewrite (_detect_running_processes_raises _ _ msg Hfs). reflexivity. }
  split; [apply Hrun|]. split.
  - rewrite Hrun. apply length_flat_map_le. intros f _.
    rewrite length_map. apply filter_length_le.
  - unfold on_login. rewrite !trace_bind, trace_tell, !highlights_app.
    cbn [highlights app]. rewrite _detect_password_managers_highlights.
    reflexivity.
Qed.

(** ** The primitives on examples *)

Example fnmatch_star : Fnmatch.fnmatch "KeePass2" "KeePass*" = true.
Proof. reflexivity. Qed.

Example fnmatch_other : Fnmatch.fnmatch "Other" "KeePass*" = false.
Proof. reflexivity. Qed.

Example fnmatch_keeps_case : Fnmatch.fnmatch "keepass2" "KeePass*" = false.
Proof. reflexivity. Qed.

Example fnmatch_negated_class : Fnmatch.fnmatch "ab]" "a[!]x]]" = true.
Proof. reflexivity. Qed.

Example fnmatch_range : Fnmatch.fnmatch "ad" "a[b-dx]" = true.
Proof. reflexivity. Qed.

Example fnmatch_open_bracket : Fnmatch.fnmatch "a[" "a[" = true.
Proof. reflexivity. Qed.

Example fnmatch_empty_range : Fnmatch.fnmatch "a-" "a[c-a-]" = true.
Proof. reflexivity. Qed.

Example split_raw_path :
  Py.split "C:\\Program Files\\KeePass*" "\\" = ["C:"; "Program Files"; "KeePass*"].
Proof. reflexivity. Qed.

Example split_three_backslashes : Py.split "a\\\b" "\\" = ["a"; "\b"].
Proof. reflexivity. Qed.

Example split_trailing_separator : Py.split "a\\" "\\" = ["a"; ""].
Proof. reflexivity. Qed.

(** A pattern written with single backslashes holds no separator: it is
    its own root. *)
Example split_single_backslashes :
  Py.split "C:\Program Files\KeePass*" "\\" = ["C:\Program Files\KeePass*"].
Proof. reflexivity. Qed.

Example replace_every_drive : Py.replace "C:/UsersC:/x" "C:" "" = "/Users/x".
Proof. reflexivity. Qed.

Example join_root : Py.join "C:" "Program Files" = "C:/Program Files".
Proof. reflexivity. Qed.

Example join_absolute : Py.join "C:/" "/x" = "/x".
Proof. reflexivity. Qed.

Example listing_path_of_directory :
  listing_path "C:/Program Files" = "/Program Files/*".
Proof. reflexivity. Qed.

Example lower_latin1 : Py.lower "LASTPASS_" = "lastpass_".
Proof. reflexivity. Qed.
